(** * better_exception_ptr: typed dispatch over a captured exception

    A shallow embedding of [src/better_exception_ptr.h] and the
    properties of its dispatch engine.

    The header is a template library, so every operation has two phases:
    - _instantiation_ (compile time): deduce each handler's argument
      type and the common return type, check the [static_assert]s, the
      call of the handler and the [return] statements; the outcome is
      [WellFormed] or [IllFormed];
    - _execution_ (run time): the body of the instantiated function, a
      computation over the state of the C++ runtime.

    An instantiated member function is therefore a value of type
    [compile (rtype * (exception_ptr -> M value))]: its return type and
    its body, or the reason why the program is rejected.

    Layout: C++ types and traits; [detail::ArgumentImpl] and friends;
    [std::common_type] and return conversions; values and the exception
    runtime; namespace [stdx]; the ABI layer; a concrete program; then
    the properties. *)

From Stdlib Require Import List String ZArith Bool Lia Permutation.
Import ListNotations.
Open Scope string_scope.
Open Scope Z_scope.

Set Implicit Arguments.

(* ================================================================= *)
(** ** C++ types *)

(** The fragment of the C++ type language the header manipulates:
    [void], the arithmetic types [bool], [int] and [long], class types
    (named), [detail::catch_all_tag], cv-qualification, pointers and
    references. *)
Inductive ctype : Type :=
| Void
| Bool
| Int
| Long
| Class (name : string)
| catch_all_tag                      (* struct catch_all_tag {}; *)
| Const (t : ctype)
| Volatile (t : ctype)
| Ptr (t : ctype)
| LRef (t : ctype)
| RRef (t : ctype).

Definition ctype_eq_dec (a b : ctype) : {a = b} + {a <> b}.
Proof. decide equality. apply string_dec. Defined.

(** [std::is_same]. *)
Definition is_same (a b : ctype) : bool :=
  if ctype_eq_dec a b then true else false.

(** [std::remove_cv_t]: strips top-level [const] / [volatile]. *)
Fixpoint remove_cv (t : ctype) : ctype :=
  match t with
  | Const u | Volatile u => remove_cv u
  | _ => t
  end.

(** [std::remove_reference_t]. *)
Definition remove_reference (t : ctype) : ctype :=
  match t with
  | LRef u | RRef u => u
  | _ => t
  end.

(** [std::is_reference_v]. *)
Definition is_reference_v (t : ctype) : bool :=
  match t with
  | LRef _ | RRef _ => true
  | _ => false
  end.

Definition is_rvalue_reference_v (t : ctype) : bool :=
  match t with
  | RRef _ => true
  | _ => false
  end.

(** [std::is_pointer_v]: a possibly cv-qualified object pointer. *)
Definition is_pointer_v (t : ctype) : bool :=
  match remove_cv t with
  | Ptr _ => true
  | _ => false
  end.

(** [std::is_void_v]. *)
Definition is_void_v (t : ctype) : bool :=
  match remove_cv t with
  | Void => true
  | _ => false
  end.

Definition is_arithmetic_v (t : ctype) : bool :=
  match remove_cv t with
  | Bool | Int | Long => true
  | _ => false
  end.

(** [std::add_pointer_t]: pointer to the referred-to type. *)
Definition add_pointer (t : ctype) : ctype := Ptr (remove_reference t).

(** [std::decay_t] on this fragment (no arrays, no function types):
    [remove_cv_t<remove_reference_t<T>>].  Written as one recursion so
    that it is idempotent on every term of [ctype]; on the terms that
    denote C++ types (no reference below a cv-qualifier or another
    reference) it is the composition. *)
Fixpoint decay (t : ctype) : ctype :=
  match t with
  | Const u | Volatile u | LRef u | RRef u => decay u
  | _ => t
  end.

(** [std::type_info]: the object [typeid(T)] refers to.  [typeid] drops a
    reference and then the top-level cv-qualifiers of its operand
    ([expr.typeid]); a [type_info] is represented by the resulting type. *)
Definition type_info : Type := ctype.

Definition typeid (t : ctype) : type_info := remove_cv (remove_reference t).

(** Return types of the library's own functions: a plain type, or
    [std::optional<T>]. *)
Inductive rtype : Type :=
| Plain (t : ctype)
| Optional (t : ctype).

(* ================================================================= *)
(** ** Instantiation results *)

Inductive static_error : Type :=
| no_call_operator          (* &Class::operator() is not a valid expression *)
| not_invocable             (* std::result_of<...> has no member [type] *)
| no_common_type            (* std::common_type<...> has no member [type] *)
| catch_all_unsupported     (* static_assert(!is_same<Argument, catch_all_tag>()) *)
| not_reference_or_pointer  (* static_assert(is_reference_v<T> || is_pointer_v<T>) *)
| cannot_bind_argument      (* the call of the handler on [*caught] does not bind *)
| bad_return_statement.     (* operand of [return] does not convert *)

Inductive compile (A : Type) : Type :=
| WellFormed (a : A)
| IllFormed (why : static_error).

Arguments IllFormed {A} why.

Definition cbind {A B} (c : compile A) (k : A -> compile B) : compile B :=
  match c with
  | WellFormed a => k a
  | IllFormed why => IllFormed why
  end.

Definition static_assert (b : bool) (why : static_error) : compile unit :=
  if b then WellFormed tt else IllFormed why.

Declare Scope compile_scope.
Delimit Scope compile_scope with compile.
Notation "x <- c ;; k" := (cbind c (fun x => k))
  (at level 61, c at next level, right associativity) : compile_scope.
Notation "' pat <- c ;; k" := (cbind c (fun x => match x with pat => k end))
  (at level 61, pat pattern, c at next level, right associativity) : compile_scope.
Notation "c ;;; k" := (cbind c (fun _ => k))
  (at level 61, right associativity) : compile_scope.

Definition well_formed {A} (c : compile A) : bool :=
  match c with
  | WellFormed _ => true
  | IllFormed _ => false
  end.

(* ================================================================= *)
(** ** detail::ArgumentImpl / ArgumentOf / ReturnOf *)

(** A function type [Ret(Args...)] or [Ret(Args..., ...)].  Parameter
    types are as they appear in the function type. *)
Record signature : Type := Signature {
  sig_ret : ctype;
  sig_params : list ctype;
  sig_variadic : bool            (* trailing C ellipsis *)
}.

(** The qualifiers a member function type can carry besides [const]. *)
Inductive other_qualifier : Type :=
| q_volatile
| q_lvalue_ref       (* & *)
| q_rvalue_ref       (* && *)
| q_noexcept.

(** What [ArgumentImpl] can be instantiated with. *)
Inductive callable : Type :=
| FunctionType (s : signature)                     (* Ret(Args...) *)
| MemberFunctionPointer (s : signature) (is_const : bool)
      (* pointer to a member function of signature [s], const or not,
         and with no other qualifier *)
| ClassType (call_operator : option (signature * bool))
      (* a class; [Some (s, c)] when [&Class::operator()] names a single
         member function of signature [s], const-qualified iff [c], and
         with no other qualifier *)
| FunctionPointer (s : signature)                  (* pointer to function *)
| ReferenceTo (c : callable)                       (* Class& *)
| QualifiedMemberFunctionPointer (s : signature) (is_const : bool)
    (q : other_qualifier) (more : list other_qualifier)
      (* pointer to a member function that is volatile, ref-qualified or
         noexcept: its qualifiers are [q :: more] *)
| QualifiedCallOperator (s : signature) (is_const : bool)
    (q : other_qualifier) (more : list other_qualifier).
      (* a class whose single call operator is volatile, ref-qualified
         or noexcept *)

(** The three leaf specialisations, lines 25-38.  Any other function type
    falls back to the primary template, which asks for
    [&Class::operator()] on a non-class type. *)
Definition ArgumentImpl_function (s : signature) : compile ctype :=
  match sig_params s, sig_variadic s with
  | [Arg], false => WellFormed Arg           (* ArgumentImpl<Ret(Arg)> *)
  | [], true => WellFormed catch_all_tag     (* ArgumentImpl<Ret(...)> *)
  | [], false => WellFormed Void             (* ArgumentImpl<Ret()> *)
  | _, _ => IllFormed no_call_operator
  end.

(** Lines 13-23: the primary template forwards a class to the type of
    its call operator; the four member-pointer specialisations forward
    to the function type.  They cover the plain and the [const] member
    function types, with and without ellipsis; a member function type
    with any other qualifier matches none of them and is handed to the
    primary template, as a non-class. *)
Definition ArgumentImpl (c : callable) : compile ctype :=
  match c with
  | FunctionType s => ArgumentImpl_function s
  | MemberFunctionPointer s _ => ArgumentImpl_function s
  | ClassType (Some (s, _)) => ArgumentImpl_function s
  | ClassType None => IllFormed no_call_operator
  | FunctionPointer _ => IllFormed no_call_operator
  | ReferenceTo _ => IllFormed no_call_operator
  | QualifiedMemberFunctionPointer _ _ _ _ => IllFormed no_call_operator
  | QualifiedCallOperator _ _ _ _ => IllFormed no_call_operator
  end.

Definition ArgumentOf (c : callable) : compile ctype := ArgumentImpl c.

(** [std::result_of<T(Args...)>]: the return type of calling an object
    of type [T] on arguments of types [Args...].  The arguments
    [ReturnOfImpl] supplies have the parameter's own type, so only their
    number is at stake; an ellipsis takes any number of extra arguments. *)
Definition result_of (c : callable) (Args : list ctype) : compile ctype :=
  match c with
  | ClassType (Some (s, _)) =>
      if (List.length Args =? List.length (sig_params s))%nat
         || (sig_variadic s
             && (List.length (sig_params s) <=? List.length Args)%nat)
      then WellFormed (sig_ret s)
      else IllFormed not_invocable
  | _ => IllFormed no_call_operator
  end.

(** Lines 43-47: the primary template calls [T] on an [ArgumentOf<T>],
    the specialisation for [void] calls it on nothing. *)
Definition ReturnOfImpl (c : callable) (Argument : ctype) : compile ctype :=
  match Argument with
  | Void => result_of c []
  | _ => result_of c [Argument]
  end.

(** Lines 49-50. *)
Definition ReturnOf (c : callable) : compile ctype :=
  (Argument <- ArgumentOf c ;; ReturnOfImpl c Argument)%compile.

(* ================================================================= *)
(** ** std::common_type and the conversions of a [return] statement *)

(** Type of [false ? std::declval<A>() : std::declval<B>()] for decayed
    [A] and [B] ([expr.cond]): with a [void] operand both must be
    [void]; equal types give that type; two arithmetic types give the
    result of the usual arithmetic conversions.  The classes of this
    fragment declare no conversions, so nothing else unifies. *)
Definition conditional_type (a b : ctype) : option ctype :=
  if is_void_v a || is_void_v b then
    if is_void_v a && is_void_v b then Some Void else None
  else if is_same a b then Some a
  else if is_arithmetic_v a && is_arithmetic_v b then
    if is_same a Long || is_same b Long then Some Long else Some Int
  else None.

Definition common_type2 (a b : ctype) : option ctype :=
  option_map decay (conditional_type (decay a) (decay b)).

(** [common_type<T>] is [common_type<T, T>]; [common_type<T1, T2, R...>]
    is [common_type<common_type_t<T1, T2>, R...>]. *)
Fixpoint common_type_from (c : ctype) (rest : list ctype) : option ctype :=
  match rest with
  | [] => common_type2 c c
  | t :: r =>
      match common_type2 c t with
      | Some c' => common_type_from c' r
      | None => None
      end
  end.

Definition common_type (ts : list ctype) : compile ctype :=
  match ts with
  | [] => IllFormed no_common_type
  | t :: r =>
      match common_type_from t r with
      | Some c => WellFormed c
      | None => IllFormed no_common_type
      end
  end.

(** Implicit conversion between non-void object types of the fragment:
    identity up to cv and reference, and the arithmetic conversions. *)
Definition implicitly_convertible (from to : ctype) : bool :=
  is_same (decay from) (decay to)
  || (is_arithmetic_v (decay from) && is_arithmetic_v (decay to)).

(** Is [return e;] well-formed when [e] has type [operand] and the
    function returns [ret]?  A [void] operand is allowed exactly in a
    function returning [void] ([stmt.return]); [std::optional<T>] is
    implicitly constructible from a [U] or a [std::optional<U>] with [U]
    convertible to [T], and converts to nothing else implicitly. *)
Definition return_statement (operand ret : rtype) : bool :=
  match operand, ret with
  | Plain a, Plain b =>
      if is_void_v a then is_void_v b
      else negb (is_void_v b) && implicitly_convertible a b
  | Plain a, Optional b => negb (is_void_v a) && implicitly_convertible a b
  | Optional a, Optional b => implicitly_convertible a b
  | Optional _, Plain _ => false
  end.

(* ================================================================= *)
(** ** Run-time values *)

Inductive value : Type :=
| VVoid
| VBool (b : bool)
| VInt (z : Z)                   (* 32-bit two's complement *)
| VLong (z : Z)                  (* 64-bit two's complement *)
| VPointer (a : Z)               (* an object pointer; 0 is the null pointer *)
| VLvalue (a : Z)                (* the object at address [a], as a reference binds it *)
| VNullopt                       (* a disengaged std::optional *)
| VEngaged (v : value).          (* a std::optional holding [v] *)

Definition wrap (bits : Z) (z : Z) : Z :=
  (z + 2 ^ (bits - 1)) mod 2 ^ bits - 2 ^ (bits - 1).

Definition integral (v : value) : Z :=
  match v with
  | VBool b => if b then 1 else 0
  | VInt z | VLong z => z
  | _ => 0
  end.

(** The value of an implicit conversion to [to]. *)
Definition convert (to : ctype) (v : value) : value :=
  match decay to, v with
  | Bool, (VBool _ | VInt _ | VLong _) => VBool (negb (integral v =? 0))
  | Int, (VBool _ | VInt _ | VLong _) => VInt (wrap 32 (integral v))
  | Long, (VBool _ | VInt _ | VLong _) => VLong (wrap 64 (integral v))
  | _, _ => v
  end.

(** The value a [return] statement hands to the caller. *)
Definition returned (operand ret : rtype) (v : value) : value :=
  match operand, ret, v with
  | Plain _, Plain b, _ => convert b v
  | Plain _, Optional b, _ => VEngaged (convert b v)
  | Optional _, Optional b, VEngaged w => VEngaged (convert b w)
  | _, _, _ => v
  end.

(** Contextual conversion to [bool], as in [if (auto caught = ...)]. *)
Definition truthy (v : value) : bool :=
  match v with
  | VBool b => b
  | VInt z | VLong z | VPointer z => negb (z =? 0)
  | VEngaged _ => true
  | _ => false
  end.

(** Unary [*]: the pointee of a pointer, the content of an optional. *)
Definition deref (v : value) : value :=
  match v with
  | VPointer a => VLvalue a
  | VEngaged w => w
  | _ => v
  end.

(** [T{}] / [return {};] for the library's return types. *)
Definition value_initialized (t : rtype) : value :=
  match t with
  | Optional _ => VNullopt
  | Plain t =>
      match remove_cv t with
      | Bool => VBool false
      | Int => VInt 0
      | Long => VLong 0
      | Ptr _ => VPointer 0
      | _ => VVoid
      end
  end.

(* ================================================================= *)
(** ** The hosting runtime: exception objects and their propagation *)

(** A thrown object as the ABI lays it out: the [type_info] recorded in
    its header and the address of the object itself (never null). *)
Record exception_object : Type := ExceptionObject {
  exceptionType : type_info;
  object_address : positive
}.

(** [std::exception_ptr]: null, or a shared reference to a thrown object. *)
Definition std_exception_ptr : Type := option exception_object.

(** [struct current_exception_tag {};], line 9. *)
Inductive current_exception_tag : Type := current_exception_tag_value.

(** [class exception_ptr : public std::exception_ptr], lines 53-56: the
    two converting constructors copy or move the base. *)
Record exception_ptr : Type := from_std { base : std_exception_ptr }.

Inductive outcome (A : Type) : Type :=
| Returns (a : A)                 (* normal completion *)
| Throws (e : exception_object)   (* an exception propagates *)
| Terminates                      (* std::terminate was called *)
| Undefined.                      (* a precondition of the runtime was violated *)

Arguments Throws {A} e.
Arguments Terminates {A}.
Arguments Undefined {A}.

Definition outcome_map {A B} (f : A -> B) (o : outcome A) : outcome B :=
  match o with
  | Returns a => Returns (f a)
  | Throws e => Throws e
  | Terminates => Terminates
  | Undefined => Undefined
  end.

(* ================================================================= *)
(** ** The library: namespace stdx *)

Module stdx.

Section Dispatch.

(** State the handlers' bodies act on (whatever their captures reach). *)
Variable W : Type.

(** One call of a handler: which closure, on which argument. *)
Definition call : Type := (string * value)%type.

Record runtime : Type := Runtime {
  handled : list exception_object;  (* currently handled exceptions, innermost first *)
  user : W;
  calls : list call                 (* handler calls made so far, oldest first *)
}.

(** Computations: state passing with the four ways a call can end. *)
Definition M (A : Type) : Type := runtime -> outcome A * runtime.

Definition ret {A} (a : A) : M A := fun rt => (Returns a, rt).

Definition bind {A B} (m : M A) (k : A -> M B) : M B := fun rt =>
  match m rt with
  | (Returns a, rt') => k a rt'
  | (Throws e, rt') => (Throws e, rt')
  | (Terminates, rt') => (Terminates, rt')
  | (Undefined, rt') => (Undefined, rt')
  end.

Declare Scope run_scope.
Delimit Scope run_scope with run.
Notation "x <- m ;; k" := (bind m (fun x => k))
  (at level 61, m at next level, right associativity) : run_scope.

(** A handler passed to [handle]: a closure object.  [name] identifies
    the closure type (every lambda expression has its own); [by_lvalue]
    tells whether the argument was an lvalue, in which case the
    forwarding reference deduces [Handler] as a reference type;
    [closure] is [std::decay_t<Handler>]. *)
Record handler : Type := Handler {
  name : string;
  by_lvalue : bool;
  closure : callable;
  body : value -> W -> outcome value * W
}.

(** The deduced template argument [Handler]. *)
Definition deduced (h : handler) : callable :=
  if by_lvalue h then ReferenceTo (closure h) else closure h.

(** [detail::ReturnOf<Handler>, detail::ReturnOf<Rest>...] *)
Fixpoint ReturnOfs (hs : list handler) : compile (list ctype) :=
  match hs with
  | [] => WellFormed []
  | h :: rest =>
      (r <- ReturnOf (deduced h) ;;
       rs <- ReturnOfs rest ;;
       WellFormed (r :: rs))%compile
  end.

(** The call expression [handler(x)]. *)
Definition invoke (h : handler) (x : value) : M value := fun rt =>
  let (o, w) := body h x (user rt) in
  (o, {| handled := handled rt; user := w; calls := calls rt ++ [(name h, x)] |}).

(** *** Runtime primitives *)

(** Modelled from the spec: [std::rethrow_exception(p)], a primitive of
    the hosting runtime: it "re-enters the raised-error state using the
    handle's stored payload, preserving its original concrete type".
    The handle must not be null. *)
Definition rethrow_exception {A} (p : std_exception_ptr) : M A := fun rt =>
  match p with
  | Some e => (Throws e, rt)
  | None => (Undefined, rt)
  end.

Definition std_terminate {A} : M A := fun rt => (Terminates, rt).

(** Modelled from the spec: [std::current_exception()], a primitive of
    the hosting runtime: it "snapshots the currently in-flight raised
    error into a new handle", "an empty handle if no error is active". *)
Definition std_current_exception : M std_exception_ptr := fun rt =>
  (Returns (hd_error (handled rt)), rt).

(** [try { block } catch (...) { clause }]: an exception leaving [block]
    becomes the handled (active) exception while [clause] runs, and
    stops being so when [clause] is left. *)
Definition try_catch_all {A} (block clause : M A) : M A := fun rt =>
  match block rt with
  | (Throws e, rt1) =>
      match clause {| handled := e :: handled rt1; user := user rt1; calls := calls rt1 |} with
      | (Terminates, rt2) => (Terminates, rt2)
      | (Undefined, rt2) => (Undefined, rt2)
      | (o, rt2) => (o, {| handled := tl (handled rt2); user := user rt2; calls := calls rt2 |})
      end
  | r => r
  end.

(** A [noexcept] function: an exception that would leave it calls
    [std::terminate]. *)
Definition noexcept {A} (m : M A) : M A := fun rt =>
  match m rt with
  | (Throws _, rt') => (Terminates, rt')
  | r => r
  end.

(** *** abi_details.h *)

(** [detail::try_catch(ptr, catch_type)] comes from abi_details.h, which
    is not among the sources: a parameter here.  Its result is tested
    and dereferenced by [try_catch]: the raw pointer to the payload as
    seen through [catch_type], or nothing. *)
Variable detail_try_catch : exception_ptr -> type_info -> option Z.

(** *** exception_ptr::try_catch, lines 107-124 *)

(** [static_cast<target>(raw)] for the two shapes of [target]. *)
Definition static_cast (target : rtype) (raw : Z) : value :=
  match target with
  | Optional _ => VEngaged (VPointer raw)
  | Plain _ => VPointer raw
  end.

Definition try_catch_target (T : ctype) : rtype :=
  if is_pointer_v T then Optional T else Plain (add_pointer T).

Definition try_catch (T : ctype) : compile (rtype * (exception_ptr -> value)) :=
  (static_assert (is_reference_v T || is_pointer_v T) not_reference_or_pointer ;;;
   let target := try_catch_target T in
   WellFormed (target, fun this =>
     match detail_try_catch this (typeid T) with
     | Some raw => static_cast target raw
     | None => value_initialized target
     end))%compile.

(** *** exception_ptr::terminate_with_active, lines 126-132 *)

Definition terminate_with_active {A} (this : exception_ptr) : M A :=
  noexcept (try_catch_all (rethrow_exception (base this)) std_terminate).

(** *** exception_ptr::handle, lines 62-90 *)

(** [std::conditional_t<std::is_void_v<CommonType>, bool,
    std::optional<CommonType>>], the declared return type. *)
Definition handle_result (CommonType : ctype) : rtype :=
  if is_void_v CommonType then Plain Bool else Optional CommonType.

Fixpoint handle (hs : list handler) : compile (rtype * (exception_ptr -> M value)) :=
  match hs with
  | [] =>
      (* bool handle() { return false; } *)
      WellFormed (Plain Bool, fun _ => ret (VBool false))
  | handler :: rest =>
      (Rs <- ReturnOfs (handler :: rest) ;;
       CommonType <- common_type Rs ;;
       let Ret := handle_result CommonType in
       Argument <- ArgumentOf (closure handler) ;;
       static_assert (negb (is_same Argument catch_all_tag)) catch_all_unsupported ;;;
       ' (_, caught_of) <- try_catch Argument ;;
       static_assert (negb (is_rvalue_reference_v Argument)) cannot_bind_argument ;;;
       R <- ReturnOf (deduced handler) ;;
       static_assert (is_void_v CommonType || return_statement (Plain R) Ret)
                     bad_return_statement ;;;
       (* no [else] after the [if constexpr]: the recursive call is
          instantiated for an empty [Rest] too *)
       ' (RestRet, handle_rest) <- handle rest ;;
       static_assert (return_statement RestRet Ret) bad_return_statement ;;;
       WellFormed (Ret, fun this =>
         let caught := caught_of this in
         if truthy caught then
           if is_void_v CommonType then
             (_ <- invoke handler (deref caught) ;; ret (VBool true))%run
           else
             (v <- invoke handler (deref caught) ;; ret (returned (Plain R) Ret v))%run
         else
           match rest with
           | [] => ret (value_initialized Ret)
           | _ => (r <- handle_rest this ;; ret (returned RestRet Ret r))%run
           end))%compile
  end.

(** *** exception_ptr::handle_or_terminate, lines 92-105 *)

Fixpoint handle_or_terminate (hs : list handler)
  : compile (rtype * (exception_ptr -> M value)) :=
  match hs with
  | [] =>
      (* [[noreturn]] void handle_or_terminate() *)
      WellFormed (Plain Void, fun this => terminate_with_active this)
  | handler :: rest =>
      (Rs <- ReturnOfs (handler :: rest) ;;
       CommonType <- common_type Rs ;;
       let Ret := Plain CommonType in
       Argument <- ArgumentOf (closure handler) ;;
       static_assert (negb (is_same Argument catch_all_tag)) catch_all_unsupported ;;;
       ' (_, caught_of) <- try_catch Argument ;;
       static_assert (negb (is_rvalue_reference_v Argument)) cannot_bind_argument ;;;
       R <- ReturnOf (deduced handler) ;;
       static_assert (return_statement (Plain R) Ret) bad_return_statement ;;;
       ' (RestRet, handle_rest) <- handle_or_terminate rest ;;
       static_assert (return_statement RestRet Ret) bad_return_statement ;;;
       WellFormed (Ret, fun this =>
         let caught := caught_of this in
         if truthy caught then
           (v <- invoke handler (deref caught) ;; ret (returned (Plain R) Ret v))%run
         else
           (r <- handle_rest this ;; ret (returned RestRet Ret r))%run))%compile
  end.

(** *** Low level api, lines 138-151 *)

(** [detail::type] and [detail::get_raw_ptr] of abi_details.h, parameters
    as well. *)
Variable detail_type : exception_ptr -> option type_info.
Variable detail_get_raw_ptr : exception_ptr -> Z.

Definition type (this : exception_ptr) : option type_info := detail_type this.

Definition get_raw_ptr (this : exception_ptr) : Z := detail_get_raw_ptr this.

(** The constructor [exception_ptr(detail::current_exception_tag)], line
    146: the base is initialised with [std::current_exception()]. *)
Definition from_current_exception (_ : current_exception_tag) : M exception_ptr :=
  (p <- std_current_exception ;; ret (from_std p))%run.

(** The free function [current_exception()], lines 149-151. *)
Definition current_exception : M exception_ptr :=
  from_current_exception current_exception_tag_value.

End Dispatch.

Arguments handle {W} detail_try_catch hs.
Arguments handle_or_terminate {W} detail_try_catch hs.
Arguments terminate_with_active {W A} this.
Arguments current_exception {W}.

(** Calls an instantiated member function on [this]; there is nothing
    to call when the instantiation is ill-formed. *)
Definition run {W A} (f : compile (rtype * (exception_ptr -> M W A)))
    (this : exception_ptr) (rt : runtime W) : option (outcome A * runtime W) :=
  match f with
  | WellFormed (_, body) => Some (body this rt)
  | IllFormed _ => None
  end.

(** The return type of an instantiated member function. *)
Definition result_type {B} (f : compile (rtype * B)) : option rtype :=
  match f with
  | WellFormed (t, _) => Some t
  | IllFormed _ => None
  end.

(* ================================================================= *)
(** ** Matching *)

Section Matching.

Variable W : Type.
Variable detail_try_catch : exception_ptr -> type_info -> option Z.

(** The handler's declared match type, [detail::ArgumentOf] of its
    decayed type. *)
Definition match_type (h : handler W) : compile ctype := ArgumentOf (closure h).

(** The typed view [try_catch<Argument>()] extracts for handler [h]. *)
Definition extracted (this : exception_ptr) (h : handler W) : option value :=
  match match_type h with
  | WellFormed Argument =>
      match try_catch detail_try_catch Argument with
      | WellFormed (_, caught_of) => Some (caught_of this)
      | IllFormed _ => None
      end
  | IllFormed _ => None
  end.

(** [h]'s declared match type matches the payload of [this]: the test
    [if (auto caught = try_catch<Argument>())] succeeds. *)
Definition matches (this : exception_ptr) (h : handler W) : bool :=
  match extracted this h with
  | Some caught => truthy caught
  | None => false
  end.

(** What the matching handler is called on, [*caught]. *)
Definition view (this : exception_ptr) (h : handler W) : value :=
  match extracted this h with
  | Some caught => deref caught
  | None => VVoid
  end.

(** Two target types that differ only in reference category and in the
    cv-qualification [typeid] ignores: both references, to the same type
    up to top-level cv; or both pointers, the same up to top-level cv. *)
Definition cv_ref_variants (T1 T2 : ctype) : bool :=
  (is_reference_v T1 && is_reference_v T2
   && is_same (remove_cv (remove_reference T1)) (remove_cv (remove_reference T2)))
  || (is_pointer_v T1 && is_pointer_v T2 && is_same (remove_cv T1) (remove_cv T2)).

(** The state after exactly one call [h(x)] from [rt], and no other. *)
Definition after_call (h : handler W) (x : value) (rt : runtime W) : runtime W :=
  {| handled := handled rt;
     user := snd (body h x (user rt));
     calls := calls rt ++ [(name h, x)] |}.

(** A handle or an optional that signals "matched". *)
Definition signals_match (v : value) : bool :=
  match v with
  | VBool true | VEngaged _ => true
  | _ => false
  end.

(** "Matched", in the shape the return type [t] of [handle] has: [true]
    for [bool], an engaged optional for [std::optional]. *)
Definition matched_result (t : rtype) (v : value) : bool :=
  match t, v with
  | Plain _, VBool true => true
  | Optional _, VEngaged _ => true
  | _, _ => false
  end.

End Matching.

End stdx.

Import stdx.

(* ================================================================= *)
(** ** The ABI layer *)

Section Abi.

(** The runtime's public-base relation between classes: [is_base_of b d]
    when a [catch (b&)] clause accepts a thrown [d]. *)
Variable is_base_of : string -> string -> bool.

(** The runtime's own notion of type compatibility between the type a
    clause catches and the type of the thrown object. *)
Definition compatible (catch_type thrown : type_info) : bool :=
  is_same catch_type thrown
  || match catch_type, thrown with
     | Class b, Class d => is_base_of b d
     | _, _ => false
     end.

(** Modelled from the spec: [detail::try_catch] of abi_details.h, which is
    not among the sources.  It is the runtime primitive that obtains "an
    untyped pointer to a handle's payload given its expected type
    identity (returns null/empty on mismatch)", matching by the payload's
    identity token "respecting the runtime's own notion of type
    compatibility, e.g. derived-to-base". *)
Definition abi_try_catch (ptr : exception_ptr) (catch_type : type_info) : option Z :=
  match base ptr with
  | Some e =>
      if compatible catch_type (exceptionType e)
      then Some (Zpos (object_address e))
      else None
  | None => None
  end.

(** Modelled from the spec: [detail::type] of abi_details.h, "the
    payload's type identity token". *)
Definition abi_type (ptr : exception_ptr) : option type_info :=
  option_map exceptionType (base ptr).

(** Modelled from the spec: [detail::get_raw_ptr] of abi_details.h, "an
    untyped pointer to the payload". *)
Definition abi_get_raw_ptr (ptr : exception_ptr) : Z :=
  match base ptr with
  | Some e => Zpos (object_address e)
  | None => 0
  end.

End Abi.

(* ================================================================= *)
(** ** A concrete program *)

Module Scenario.

(** Four unrelated error classes. *)
Definition DiskFull : ctype := Class "DiskFull".
Definition NetworkTimeout : ctype := Class "NetworkTimeout".
Definition OutOfMemory : ctype := Class "OutOfMemory".
Definition InvalidInput : ctype := Class "InvalidInput".

Definition unrelated (b d : string) : bool := false.

Definition runtime_try_catch : exception_ptr -> type_info -> option Z :=
  abi_try_catch unrelated.

(** [[] (T x) -> R { return v; }], passed as a temporary. *)
Definition lambda (label : string) (T R : ctype) (v : value) : handler unit :=
  {| name := label;
     by_lvalue := false;
     closure := ClassType (Some (Signature R [T] false, true));
     body := fun _ w => (Returns v, w) |}.

Definition h1 := lambda "h(DiskFull)" (LRef DiskFull) Int (VInt 1).
Definition h2 := lambda "h(NetworkTimeout)" (LRef NetworkTimeout) Int (VInt 2).
Definition h3 := lambda "h(OutOfMemory)" (LRef OutOfMemory) Int (VInt 3).

Definition handlers : list (handler unit) := [h1; h2; h3].

(** A handle on a thrown [NetworkTimeout] living at address 4096. *)
Definition timeout_ptr : exception_ptr :=
  from_std (Some (ExceptionObject NetworkTimeout 4096)).

Definition invalid_ptr : exception_ptr :=
  from_std (Some (ExceptionObject InvalidInput 8192)).

Definition start : runtime unit :=
  {| handled := []; user := tt; calls := [] |}.

(** [[] (NetworkTimeout) { return 2; }]: the parameter taken by value. *)
Definition by_value : handler unit :=
  lambda "h(NetworkTimeout by value)" NetworkTimeout Int (VInt 2).

(** Two handlers that return nothing. *)
Definition v1 := lambda "v(DiskFull)" (LRef DiskFull) Void VVoid.
Definition v2 := lambda "v(NetworkTimeout)" (LRef NetworkTimeout) Void VVoid.

Definition void_handlers : list (handler unit) := [v1; v2].

(** [[] (...) {}]: accepts anything. *)
Definition catch_all : handler unit :=
  {| name := "h(...)";
     by_lvalue := false;
     closure := ClassType (Some (Signature Void [] true, true));
     body := fun _ w => (Returns VVoid, w) |}.

End Scenario.

(* ================================================================= *)
(** ** What the templates accept, and what they return *)

Section Acceptance.

Variable W : Type.

(** A parameter type [handle] can be instantiated with: a reference or
    a pointer (the [static_assert] of [try_catch]) that binds to the
    lvalue [*caught]. *)
Definition accepted_parameter (T : ctype) : bool :=
  (is_reference_v T || is_pointer_v T) && negb (is_rvalue_reference_v T).

(** A handler argument both templates can be instantiated with: a
    temporary closure whose call operator, plain or [const] and with no
    other qualifier, takes exactly one such parameter and no ellipsis. *)
Definition accepted_shape (h : handler W) : bool :=
  negb (by_lvalue h)
  && match closure h with
     | ClassType (Some (s, _)) =>
         match sig_params s, sig_variadic s with
         | [T], false => accepted_parameter T
         | _, _ => false
         end
     | _ => false
     end.

(** The return type of the handler's call operator. *)
Definition declared_return (h : handler W) : ctype :=
  match closure h with
  | ClassType (Some (s, _)) => sig_ret s
  | _ => Void
  end.

Definition returns_void (h : handler W) : bool :=
  is_void_v (decay (declared_return h)).

Definition returns_arithmetic (h : handler W) : bool :=
  is_arithmetic_v (decay (declared_return h)).

(** The chains [handle] can be instantiated with. *)
Definition handle_accepts (hs : list (handler W)) : bool :=
  forallb accepted_shape hs
  && (forallb returns_void hs || forallb returns_arithmetic hs).

(** The chains [handle_or_terminate] can be instantiated with. *)
Definition handle_or_terminate_accepts (hs : list (handler W)) : bool :=
  forallb accepted_shape hs
  && forallb (fun h => is_void_v (declared_return h)) hs.

(** The widest of the arithmetic types some handler returns: [long] if
    one returns [long], else [int] if one returns [int], else [bool]. *)
Definition widest (Rs : list ctype) : ctype :=
  if existsb (fun R => is_same (decay R) Long) Rs then Long
  else if existsb (fun R => is_same (decay R) Int) Rs then Int
  else Bool.

(** The return type of [handle] on an accepted chain. *)
Definition chain_result (hs : list (handler W)) : rtype :=
  if forallb returns_void hs then Plain Bool
  else Optional (widest (map declared_return hs)).

End Acceptance.

(** Conversion rank of the arithmetic types. *)
Definition rank (t : ctype) : nat :=
  match t with
  | Int => 1
  | Long => 2
  | _ => 0
  end.

(** [v] is a value of the arithmetic type [t]: the right constructor,
    and within the range of the type. *)
Definition represents (t : ctype) (v : value) : bool :=
  match t, v with
  | Bool, VBool _ => true
  | Int, VInt z => (- 2 ^ 31 <=? z) && (z <? 2 ^ 31)
  | Long, VLong z => (- 2 ^ 63 <=? z) && (z <? 2 ^ 63)
  | _, _ => false
  end.

(** More handlers for the concrete program. *)
Module Handlers.
Import Scenario.

(** [[] (OutOfMemory* e) -> long { return 7; }] *)
Definition by_pointer : handler unit :=
  lambda "h(OutOfMemory*)" (Ptr OutOfMemory) Long (VLong 7).

(** [[] (DiskFull&) -> bool { return true; }] *)
Definition flag : handler unit :=
  lambda "h(DiskFull) -> bool" (LRef DiskFull) Bool (VBool true).

(** [[] (NetworkTimeout&&) { }] *)
Definition by_rvalue_reference : handler unit :=
  lambda "h(NetworkTimeout&&)" (RRef NetworkTimeout) Void VVoid.

(** [[] (NetworkTimeout&) -> std::string { ... }] *)
Definition describe : handler unit :=
  lambda "h(NetworkTimeout) -> string" (LRef NetworkTimeout)
         (Class "std::string") VVoid.

(** A named closure, passed as an lvalue. *)
Definition named : handler unit :=
  {| name := "named";
     by_lvalue := true;
     closure := ClassType (Some (Signature Void [LRef NetworkTimeout] false, true));
     body := fun _ w => (Returns VVoid, w) |}.

(** [[] (NetworkTimeout&) { throw OutOfMemory(); }] *)
Definition raising : handler unit :=
  {| name := "raising";
     by_lvalue := false;
     closure := ClassType (Some (Signature Void [LRef NetworkTimeout] false, true));
     body := fun _ w => (Throws (ExceptionObject OutOfMemory 12288), w) |}.

(** A free function [void on_timeout(NetworkTimeout&)], passed by name:
    it decays to a pointer to function. *)
Definition free_function : handler unit :=
  {| name := "on_timeout";
     by_lvalue := true;
     closure := FunctionPointer (Signature Void [LRef NetworkTimeout] false);
     body := fun _ w => (Returns VVoid, w) |}.

(** [[] (DiskFull&, int) { }]: two parameters. *)
Definition binary : handler unit :=
  {| name := "h(DiskFull, int)";
     by_lvalue := false;
     closure := ClassType (Some (Signature Void [LRef DiskFull; Int] false, true));
     body := fun _ w => (Returns VVoid, w) |}.

(** [[] (NetworkTimeout&) noexcept { }] *)
Definition nonthrowing : handler unit :=
  {| name := "h(NetworkTimeout) noexcept";
     by_lvalue := false;
     closure := QualifiedCallOperator
                  (Signature Void [LRef NetworkTimeout] false) true q_noexcept [];
     body := fun _ w => (Returns VVoid, w) |}.

(** A handle on a thrown pointer, an [OutOfMemory*] stored at 16384. *)
Definition pointer_ptr : exception_ptr :=
  from_std (Some (ExceptionObject (Ptr OutOfMemory) 16384)).

(** Value handlers of three different return types. *)
Definition mixed_widths : list (handler unit) := [flag; h2; by_pointer].

(** A runtime whose [detail::try_catch] answers every query with a null
    raw pointer. *)
Definition null_try_catch (p : exception_ptr) (t : type_info) : option Z :=
  Some 0.

Definition null_ptr : exception_ptr := from_std None.

End Handlers.

(* ================================================================= *)
(** * Properties *)

(** ** Type traits *)

Lemma is_same_true (a b : ctype) : is_same a b = true <-> a = b.
Proof. unfold is_same. destruct (ctype_eq_dec a b); split; congruence. Qed.

Lemma decay_idem (t : ctype) : decay (decay t) = decay t.
Proof. induction t; simpl; auto. Qed.

Lemma remove_cv_decay (t : ctype) : remove_cv (decay t) = decay t.
Proof. induction t; simpl; auto. Qed.

Lemma decay_remove_cv (t : ctype) : decay (remove_cv t) = decay t.
Proof. induction t; simpl; auto. Qed.

(** A type that is [void] up to cv stays so under [decay]. *)
Lemma is_void_decay (t : ctype) : is_void_v t = true -> is_void_v (decay t) = true.
Proof.
  unfold is_void_v. rewrite remove_cv_decay.
  intros H. rewrite <- decay_remove_cv.
  destruct (remove_cv t); simpl; congruence.
Qed.

(** ** std::common_type and [void] *)

Lemma conditional_type_void (a b c : ctype) :
  conditional_type a b = Some c ->
  is_void_v a = is_void_v c /\ is_void_v b = is_void_v c /\
  (decay a = a -> decay c = c).
Proof.
  unfold conditional_type.
  destruct (is_void_v a) eqn:Ha, (is_void_v b) eqn:Hb; simpl;
    try discriminate.
  - intros [= <-]. auto.
  - destruct (is_same a b) eqn:Hs.
    + intros [= <-]. auto.
    + destruct (is_arithmetic_v a && is_arithmetic_v b); try discriminate.
      destruct (is_same a Long || is_same b Long); intros [= <-]; auto.
Qed.

Lemma common_type2_void (a b c : ctype) :
  common_type2 a b = Some c ->
  is_void_v (decay a) = is_void_v c /\ is_void_v (decay b) = is_void_v c /\
  decay c = c.
Proof.
  unfold common_type2.
  destruct (conditional_type (decay a) (decay b)) as [c0|] eqn:E; simpl;
    try discriminate.
  intros [= <-].
  destruct (conditional_type_void _ _ E) as (Ha & Hb & Hc).
  specialize (Hc (decay_idem a)).
  rewrite decay_idem, Hc. auto.
Qed.

Lemma common_type_from_void (rest : list ctype) : forall c r,
  common_type_from c rest = Some r ->
  is_void_v (decay c) = is_void_v r /\
  Forall (fun t => is_void_v (decay t) = is_void_v r) rest.
Proof.
  induction rest as [|t rest IH]; simpl; intros c r H.
  - apply common_type2_void in H. intuition.
  - destruct (common_type2 c t) as [c'|] eqn:E; try discriminate.
    apply common_type2_void in E. destruct E as (Hc & Ht & Hd).
    destruct (IH _ _ H) as (Hc' & Hall).
    rewrite Hd in Hc'.
    split; [congruence|]. constructor; [congruence|assumption].
Qed.

(** The common type is [void] exactly when every member is, and as soon
    as one member is. *)
Lemma common_type_void (ts : list ctype) (c : ctype) :
  common_type ts = WellFormed c ->
  Forall (fun t => is_void_v (decay t) = is_void_v c) ts.
Proof.
  destruct ts as [|t r]; simpl; try discriminate.
  destruct (common_type_from t r) as [c'|] eqn:E; try discriminate.
  intros [= <-]. apply common_type_from_void in E.
  destruct E. constructor; assumption.
Qed.

(** ** Instantiation of [handle] and [handle_or_terminate] *)

Lemma cbind_inv {A B} (c : compile A) (k : A -> compile B) (b : B) :
  cbind c k = WellFormed b -> exists a, c = WellFormed a /\ k a = WellFormed b.
Proof. destruct c; simpl; [eauto | discriminate]. Qed.

Lemma static_assert_inv (b : bool) (why : static_error) (u : unit) :
  static_assert b why = WellFormed u -> b = true.
Proof. destruct b; simpl; [reflexivity | discriminate]. Qed.

(** Splits a well-formed sequence of instantiation steps. *)
Ltac split_compile H :=
  repeat
    (let x := fresh "x" in
     let E := fresh "E" in
     apply cbind_inv in H; destruct H as (x & E & H);
     try (apply static_assert_inv in E);
     try match type of x with (_ * _)%type => destruct x end).

Section Properties.

Variable W : Type.
Variable detail_try_catch : exception_ptr -> type_info -> option Z.

Abbreviation handler := (handler W).
Abbreviation runtime := (runtime W).
Abbreviation M := (M W).
Abbreviation try_catch := (try_catch detail_try_catch).
Abbreviation handle := (handle (W:=W) detail_try_catch).
Abbreviation handle_or_terminate := (handle_or_terminate (W:=W) detail_try_catch).
Abbreviation matches := (matches detail_try_catch).
Abbreviation view := (view detail_try_catch).
Abbreviation extracted := (extracted detail_try_catch).

(** What instantiating [handle] on a non-empty chain establishes. *)
Lemma handle_cons_inv (h : handler) (rest : list handler) (t : rtype)
    (run : exception_ptr -> M value) :
  handle (h :: rest) = WellFormed (t, run) ->
  exists Rs CommonType Argument target caught_of R RestRet handle_rest,
    ReturnOfs (h :: rest) = WellFormed Rs /\
    common_type Rs = WellFormed CommonType /\
    ArgumentOf (closure h) = WellFormed Argument /\
    is_same Argument catch_all_tag = false /\
    try_catch Argument = WellFormed (target, caught_of) /\
    is_rvalue_reference_v Argument = false /\
    ReturnOf (deduced h) = WellFormed R /\
    (is_void_v CommonType || return_statement (Plain R) (handle_result CommonType)) = true /\
    handle rest = WellFormed (RestRet, handle_rest) /\
    return_statement RestRet (handle_result CommonType) = true /\
    t = handle_result CommonType /\
    run = (fun this =>
      let caught := caught_of this in
      if truthy caught then
        if is_void_v CommonType then
          bind (invoke h (deref caught)) (fun _ => ret (VBool true))
        else
          bind (invoke h (deref caught))
               (fun v => ret (returned (Plain R) (handle_result CommonType) v))
      else
        match rest with
        | [] => ret (value_initialized (handle_result CommonType))
        | _ => bind (handle_rest this)
                 (fun r => ret (returned RestRet (handle_result CommonType) r))
        end).
Proof.
  intros H. cbn [stdx.handle] in H. split_compile H.
  injection H as <- <-.
  apply negb_true_iff in E2, E4.
  repeat eexists; eauto.
Qed.

Lemma ReturnOfs_cons_inv (h : handler) (rest : list handler) (Rs : list ctype) :
  ReturnOfs (h :: rest) = WellFormed Rs ->
  exists R Rs', Rs = R :: Rs' /\ ReturnOf (deduced h) = WellFormed R /\
                ReturnOfs rest = WellFormed Rs'.
Proof.
  intros H. cbn [ReturnOfs] in H. split_compile H.
  injection H as <-. eauto.
Qed.

(** A non-empty tail of a chain signals the way the whole chain does:
    both with [bool] or both with an optional. *)
Lemma common_type_tail_void (R R' : ctype) (Rs : list ctype) (c c' : ctype) :
  common_type (R :: R' :: Rs) = WellFormed c ->
  common_type (R' :: Rs) = WellFormed c' ->
  is_void_v c = is_void_v c'.
Proof.
  intros H H'.
  apply common_type_void in H. apply common_type_void in H'.
  inversion H as [|? ? _ Ht]; subst. inversion Ht as [|? ? Hc _]; subst.
  inversion H' as [|? ? Hc' _]; subst.
  congruence.
Qed.

Lemma extracted_head (h : handler) (Argument : ctype) (target : rtype)
    (caught_of : exception_ptr -> value) (this : exception_ptr) :
  ArgumentOf (closure h) = WellFormed Argument ->
  try_catch Argument = WellFormed (target, caught_of) ->
  extracted this h = Some (caught_of this).
Proof.
  intros HA HT. unfold stdx.extracted, match_type. now rewrite HA, HT.
Qed.

Lemma bind_invoke (h : handler) (x : value) (f : value -> value) (rt : runtime) :
  bind (invoke h x) (fun v => ret (f v)) rt
  = (outcome_map f (fst (body h x (user rt))), after_call h x rt).
Proof.
  unfold bind, invoke, after_call, ret.
  destruct (body h x (user rt)) as [[v|e| |] w]; reflexivity.
Qed.

Lemma bind_ret_map {A} (m : M value) (w : A -> value) (g : value -> value)
    (o : outcome A) (rt rt' : runtime) :
  m rt = (outcome_map w o, rt') ->
  bind m (fun r => ret (g r)) rt = (outcome_map (fun v => g (w v)) o, rt').
Proof.
  intros H. unfold bind, ret. rewrite H. destruct o; reflexivity.
Qed.

(** The return conversion of the recursive call keeps "matched". *)
Lemma returned_matched (RestRet : rtype) (c : ctype) (v : value) :
  return_statement RestRet (handle_result c) = true ->
  matched_result RestRet v = true ->
  matched_result (handle_result c) (returned RestRet (handle_result c) v) = true.
Proof.
  unfold handle_result.
  destruct (is_void_v c), RestRet as [a|a], v as [| [|] | | | | | |];
    simpl; try discriminate; auto.
Qed.

(** ... and keeps "no match" when both levels signal the same way. *)
Lemma returned_empty (c c' : ctype) :
  is_void_v c = is_void_v c' ->
  returned (handle_result c') (handle_result c) (value_initialized (handle_result c'))
  = value_initialized (handle_result c).
Proof.
  unfold handle_result. intros <-. destruct (is_void_v c); reflexivity.
Qed.

(** [handle] is first-match dispatch: it calls the first handler whose
    match type matches, once, and nothing else; without a match it calls
    nothing and value-initialises its result. *)
Lemma handle_spec (hs : list handler) : forall t run,
  handle hs = WellFormed (t, run) ->
  forall this rt,
  match find (matches this) hs with
  | Some h =>
      exists wrap, (forall v, matched_result t (wrap v) = true) /\
        run this rt = (outcome_map wrap (fst (body h (view this h) (user rt))),
                       after_call h (view this h) rt)
  | None => run this rt = (Returns (value_initialized t), rt)
  end.
Proof.
  induction hs as [|h rest IH]; intros t run H this rt.
  - cbn in H. injection H as <- <-. reflexivity.
  - apply handle_cons_inv in H. destruct H as
      (Rs & c & A & target & caught_of & R & RestRet & handle_rest &
       HRs & Hc & HA & Hcatch & HT & Hbind & HR & Hret & Hrest & Hconv & -> & ->).
    pose proof (@extracted_head h _ _ _ this HA HT) as Hex.
    assert (Hm : matches this h = truthy (caught_of this))
      by (unfold stdx.matches; now rewrite Hex).
    assert (Hv : view this h = deref (caught_of this))
      by (unfold stdx.view; now rewrite Hex).
    cbn [find]. rewrite Hm. cbv beta zeta.
    destruct (truthy (caught_of this)) eqn:Htruthy.
    + (* the head matches *)
      rewrite Hv.
      destruct (is_void_v c) eqn:Hvoid.
      * exists (fun _ => VBool true). split.
        -- intros _. unfold handle_result. now rewrite Hvoid.
        -- apply bind_invoke.
      * exists (returned (Plain R) (handle_result c)). split.
        -- intros v. unfold handle_result. now rewrite Hvoid.
        -- apply bind_invoke.
    + (* the head does not match: the rest of the chain decides *)
      specialize (IH _ _ Hrest this rt).
      destruct rest as [|h' rest'].
      * reflexivity.
      * destruct (find (matches this) (h' :: rest')) as [hk|] eqn:Hfind.
        -- destruct IH as (wrap & Hwrap & Hrun).
           exists (fun v => returned RestRet (handle_result c) (wrap v)). split.
           ++ intros v. now apply returned_matched.
           ++ now apply bind_ret_map.
        -- pose proof Hrest as Hinner. apply handle_cons_inv in Hinner.
           destruct Hinner as
             (Rs' & c' & _ & _ & _ & _ & _ & _ & HRs' & Hc' & _ & _ & _ & _ & _ & _ & _ & _ & -> & _).
           apply ReturnOfs_cons_inv in HRs.
           destruct HRs as (R0 & Rs0 & -> & _ & HRs0).
           rewrite HRs0 in HRs'. injection HRs' as <-.
           pose proof HRs0 as HRs1. apply ReturnOfs_cons_inv in HRs1.
           destruct HRs1 as (R1 & Rs1 & -> & _ & _).
           pose proof (@common_type_tail_void _ _ _ _ _ Hc Hc') as Hsame.
           unfold bind, ret. rewrite IH. f_equal. f_equal.
           now apply returned_empty.
Qed.

Lemma find_first {A} (f : A -> bool) (l : list A) : forall k x,
  nth_error l k = Some x ->
  f x = true ->
  (forall j y, (j < k)%nat -> nth_error l j = Some y -> f y = false) ->
  find f l = Some x.
Proof.
  induction l as [|a l IH]; intros [|k] x Hn Hx Hbefore; simpl in *;
    try discriminate.
  - injection Hn as ->. now rewrite Hx.
  - rewrite (Hbefore 0%nat a) by (simpl; auto; lia).
    apply (IH k); auto.
    intros j y Hj Hy. apply (Hbefore (S j)); simpl; auto; lia.
Qed.

Lemma find_none {A} (f : A -> bool) (l : list A) :
  (forall x, In x l -> f x = false) -> find f l = None.
Proof.
  induction l as [|a l IH]; simpl; intros H; auto.
  rewrite (H a) by auto. apply IH. auto.
Qed.

Lemma well_formed_inv {A} (c : compile A) :
  well_formed c = true -> exists a, c = WellFormed a.
Proof. destruct c; simpl; [eauto | discriminate]. Qed.

(** What instantiating [handle_or_terminate] on a non-empty chain
    establishes. *)
Lemma handle_or_terminate_cons_inv (h : handler) (rest : list handler)
    (t : rtype) (run : exception_ptr -> M value) :
  handle_or_terminate (h :: rest) = WellFormed (t, run) ->
  exists Rs CommonType Argument target caught_of R RestRet handle_rest,
    ReturnOfs (h :: rest) = WellFormed Rs /\
    common_type Rs = WellFormed CommonType /\
    ArgumentOf (closure h) = WellFormed Argument /\
    is_same Argument catch_all_tag = false /\
    try_catch Argument = WellFormed (target, caught_of) /\
    is_rvalue_reference_v Argument = false /\
    ReturnOf (deduced h) = WellFormed R /\
    return_statement (Plain R) (Plain CommonType) = true /\
    handle_or_terminate rest = WellFormed (RestRet, handle_rest) /\
    return_statement RestRet (Plain CommonType) = true /\
    t = Plain CommonType /\
    run = (fun this =>
      let caught := caught_of this in
      if truthy caught then
        bind (invoke h (deref caught))
             (fun v => ret (returned (Plain R) (Plain CommonType) v))
      else
        bind (handle_rest this)
             (fun r => ret (returned RestRet (Plain CommonType) r))).
Proof.
  intros H. cbn [stdx.handle_or_terminate] in H. split_compile H.
  injection H as <- <-.
  apply negb_true_iff in E2, E4.
  repeat eexists; eauto.
Qed.

(** The terminal overload returns [void], and a [void] operand can only
    be returned from a function returning [void]: every well-formed
    instantiation of [handle_or_terminate] has a [void] common type. *)
Lemma handle_or_terminate_void (hs : list handler) : forall t run,
  handle_or_terminate hs = WellFormed (t, run) ->
  exists c, t = Plain c /\ is_void_v c = true.
Proof.
  induction hs as [|h rest IH]; intros t run H.
  - cbn in H. injection H as <- _. exists Void. auto.
  - apply handle_or_terminate_cons_inv in H. destruct H as
      (Rs & c & A & target & caught_of & R & RestRet & handle_rest &
       _ & _ & _ & _ & _ & _ & _ & _ & Hrest & Hconv & -> & _).
    exists c. split; [reflexivity|].
    destruct (IH _ _ Hrest) as (c' & -> & Hc').
    simpl in Hconv. now rewrite Hc' in Hconv.
Qed.

(** The escalation itself: with an error held, the error is made the
    active exception and the process terminates; nothing else changes. *)
Lemma terminate_with_active_spec {A} (this : exception_ptr) (rt : runtime) :
  terminate_with_active (A:=A) this rt =
  match base this with
  | Some e => (Terminates,
               {| handled := e :: handled rt; user := user rt; calls := calls rt |})
  | None => (Undefined, rt)
  end.
Proof.
  unfold terminate_with_active, noexcept, try_catch_all, rethrow_exception,
    std_terminate.
  destruct (base this); reflexivity.
Qed.

(** [handle_or_terminate] selects like [handle], and escalates where
    [handle] would report no match. *)
Lemma handle_or_terminate_spec (hs : list handler) : forall t run,
  handle_or_terminate hs = WellFormed (t, run) ->
  forall this rt,
  match find (matches this) hs with
  | Some h =>
      exists wrap,
        run this rt = (outcome_map wrap (fst (body h (view this h) (user rt))),
                       after_call h (view this h) rt)
  | None => run this rt = terminate_with_active this rt
  end.
Proof.
  induction hs as [|h rest IH]; intros t run H this rt.
  - cbn in H. injection H as <- <-. reflexivity.
  - apply handle_or_terminate_cons_inv in H. destruct H as
      (Rs & c & A & target & caught_of & R & RestRet & handle_rest &
       HRs & Hc & HA & Hcatch & HT & Hbind & HR & Hret & Hrest & Hconv & -> & ->).
    pose proof (@extracted_head h _ _ _ this HA HT) as Hex.
    assert (Hm : matches this h = truthy (caught_of this))
      by (unfold stdx.matches; now rewrite Hex).
    assert (Hv : view this h = deref (caught_of this))
      by (unfold stdx.view; now rewrite Hex).
    cbn [find]. rewrite Hm. cbv beta zeta.
    destruct (truthy (caught_of this)) eqn:Htruthy.
    + rewrite Hv. eexists. apply bind_invoke.
    + specialize (IH _ _ Hrest this rt).
      destruct (find (matches this) rest) as [hk|].
      * destruct IH as (wrap & Hrun). eexists.
        apply bind_ret_map. exact Hrun.
      * unfold bind. rewrite IH, terminate_with_active_spec.
        destruct (base this); reflexivity.
Qed.

Lemma try_catch_inv (T : ctype) (target : rtype)
    (caught_of : exception_ptr -> value) :
  try_catch T = WellFormed (target, caught_of) ->
  (is_reference_v T || is_pointer_v T) = true /\
  target = try_catch_target T /\
  caught_of = (fun this =>
    match detail_try_catch this (typeid T) with
    | Some raw => static_cast (try_catch_target T) raw
    | None => value_initialized (try_catch_target T)
    end).
Proof.
  unfold stdx.try_catch. intros H. split_compile H.
  injection H as <- <-. auto.
Qed.

(** Every handler of a well-formed [handle] has a reference or pointer
    match type. *)
Lemma handle_match_types (hs : list handler) : forall t run,
  handle hs = WellFormed (t, run) ->
  forall h, In h hs ->
  exists Argument, match_type h = WellFormed Argument /\
    (is_reference_v Argument || is_pointer_v Argument) = true.
Proof.
  induction hs as [|h0 rest IH]; intros t run H h Hin; [contradiction|].
  apply handle_cons_inv in H. destruct H as
    (Rs & c & A & target & caught_of & R & RestRet & handle_rest &
     _ & _ & HA & _ & HT & _ & _ & _ & Hrest & _ & _ & _).
  destruct Hin as [<-|Hin].
  - exists A. split; [exact HA|]. now apply try_catch_inv in HT.
  - eapply IH; eauto.
Qed.

Lemma handle_or_terminate_match_types (hs : list handler) : forall t run,
  handle_or_terminate hs = WellFormed (t, run) ->
  forall h, In h hs ->
  exists Argument, match_type h = WellFormed Argument /\
    (is_reference_v Argument || is_pointer_v Argument) = true.
Proof.
  induction hs as [|h0 rest IH]; intros t run H h Hin; [contradiction|].
  apply handle_or_terminate_cons_inv in H. destruct H as
    (Rs & c & A & target & caught_of & R & RestRet & handle_rest &
     _ & _ & HA & _ & HT & _ & _ & _ & Hrest & _ & _ & _).
  destruct Hin as [<-|Hin].
  - exists A. split; [exact HA|]. now apply try_catch_inv in HT.
  - eapply IH; eauto.
Qed.

(** Whatever [handle_or_terminate] accepts, [handle] accepts. *)
Lemma handle_or_terminate_handle (hs : list handler) : forall t run,
  handle_or_terminate hs = WellFormed (t, run) ->
  exists run', handle hs = WellFormed (Plain Bool, run').
Proof.
  induction hs as [|h rest IH]; intros t run H.
  - cbn. eauto.
  - pose proof H as Hvoid. apply handle_or_terminate_void in Hvoid.
    destruct Hvoid as (c0 & -> & Hc0).
    apply handle_or_terminate_cons_inv in H. destruct H as
      (Rs & c & A & target & caught_of & R & RestRet & handle_rest &
       HRs & Hc & HA & Hcatch & HT & Hbind & HR & Hret & Hrest & Hconv & [= ->] & _).
    destruct (IH _ _ Hrest) as (run' & Hrun').
    cbn [stdx.handle]. rewrite HRs. cbn [cbind]. rewrite Hc. cbn [cbind].
    rewrite HA. cbn [cbind]. rewrite Hcatch. cbn [negb static_assert cbind].
    rewrite HT. cbn [cbind]. rewrite Hbind. cbn [negb static_assert cbind].
    rewrite HR. cbn [cbind]. rewrite Hc0. cbn [orb static_assert cbind].
    rewrite Hrun'. cbn [cbind]. unfold handle_result. rewrite Hc0.
    cbn. eauto.
Qed.

Lemma matched_result_signals (t : rtype) (v : value) :
  matched_result t v = true -> signals_match v = true.
Proof. destruct t, v as [| [|] | | | | | |]; simpl; auto; discriminate. Qed.

(** First-match dispatch, by position. *)
Lemma handle_first_match (hs : list handler) (this : exception_ptr)
    (k : nat) (h : handler) (rt : runtime) :
  well_formed (handle hs) = true ->
  nth_error hs k = Some h ->
  matches this h = true ->
  (forall j h', (j < k)%nat -> nth_error hs j = Some h' -> matches this h' = false) ->
  exists wrap, (forall v, signals_match (wrap v) = true) /\
    run (handle hs) this rt
    = Some (outcome_map wrap (fst (body h (view this h) (user rt))),
            after_call h (view this h) rt).
Proof.
  intros Hwf Hn Hm Hbefore.
  apply well_formed_inv in Hwf. destruct Hwf as ((t & body) & Hwf).
  pose proof (@handle_spec hs t body Hwf this rt) as Hspec.
  rewrite (@find_first _ (matches this) hs k h Hn Hm Hbefore) in Hspec.
  destruct Hspec as (wrap & Hwrap & Hrun).
  exists wrap. split.
  - intros v. eapply matched_result_signals, Hwrap.
  - rewrite Hwf. cbn. now rewrite Hrun.
Qed.

Lemma handle_result_type (hs : list handler) (t : rtype)
    (run : exception_ptr -> M value) :
  handle hs = WellFormed (t, run) ->
  t = Plain Bool \/ exists c, t = Optional c.
Proof.
  destruct hs as [|h rest]; intros H.
  - cbn in H. injection H as <- _. auto.
  - apply handle_cons_inv in H. destruct H as
      (Rs & c & A & target & caught_of & R & RestRet & handle_rest &
       _ & _ & _ & _ & _ & _ & _ & _ & _ & _ & -> & _).
    unfold handle_result. destruct (is_void_v c); eauto.
Qed.

(** C2. With an empty handler list, or when no handler's match type
    matches the payload, [handle] returns the negative result ([false]
    for a [bool] chain, a disengaged optional for a value chain) and calls
    no handler: the state is unchanged.  On the empty list the result
    depends neither on the handle nor on the type-identity primitive. *)
Theorem dispatch_no_match_is_empty (hs : list handler) (this : exception_ptr)
    (rt : runtime) :
  well_formed (handle hs) = true ->
  (forall h, In h hs -> matches this h = false) ->
  run (handle hs) this rt
  = Some (Returns match result_type (handle hs) with
                  | Some (Optional _) => VNullopt
                  | _ => VBool false
                  end, rt)
  /\ forall (probe : exception_ptr -> type_info -> option Z) (other : exception_ptr),
       run (stdx.handle (W:=W) probe []) other rt = Some (Returns (VBool false), rt).
Proof.
  intros Hwf Hnone. split; [|reflexivity].
  apply well_formed_inv in Hwf. destruct Hwf as ((t & body) & Hwf).
  pose proof (@handle_spec hs t body Hwf this rt) as Hspec.
  rewrite (@find_none _ _ _ Hnone) in Hspec.
  rewrite Hwf. cbn. rewrite Hspec.
  destruct (@handle_result_type _ _ _ Hwf) as [->|(c & ->)]; reflexivity.
Qed.

(** C4. [handle_or_terminate] matches the way [handle] does: on every
    handle and state both make the same handler calls with the same
    effect, and a first matching handler is called once and its result
    returned.  When no handler matches, the held error is re-raised,
    caught, and the process terminates with it as the active exception,
    without any handler call; the function does not return.  The form
    without handlers always does so. *)
Theorem escalation_matches_like_dispatch (hs : list handler)
    (this : exception_ptr) (e : exception_object) (rt : runtime) :
  well_formed (handle_or_terminate hs) = true ->
  base this = Some e ->
  (exists o s o' s',
      run (handle hs) this rt = Some (o, s) /\
      run (handle_or_terminate hs) this rt = Some (o', s') /\
      calls s' = calls s /\ user s' = user s) /\
  (forall h, find (matches this) hs = Some h ->
     exists wrap,
       run (handle_or_terminate hs) this rt
       = Some (outcome_map wrap (fst (body h (view this h) (user rt))),
               after_call h (view this h) rt)) /\
  ((forall h, In h hs -> matches this h = false) ->
     run (handle_or_terminate hs) this rt
     = Some (Terminates,
             {| handled := e :: handled rt; user := user rt; calls := calls rt |})) /\
  run (handle_or_terminate []) this rt
  = Some (Terminates,
          {| handled := e :: handled rt; user := user rt; calls := calls rt |}).
Proof.
  intros Hwf He.
  apply well_formed_inv in Hwf. destruct Hwf as ((t & body) & Hwf).
  destruct (@handle_or_terminate_handle _ _ _ Hwf) as (body' & Hwf').
  pose proof (@handle_or_terminate_spec hs t body Hwf this rt) as Hesc.
  pose proof (@handle_spec hs _ body' Hwf' this rt) as Hdis.
  rewrite Hwf, Hwf'. cbn [run].
  repeat split.
  - destruct (find (matches this) hs) as [h|].
    + destruct Hesc as (wrap & ->). destruct Hdis as (wrap' & _ & ->).
      repeat eexists.
    + rewrite Hesc, Hdis, terminate_with_active_spec, He.
      repeat eexists.
  - intros h Hfind. rewrite Hfind in Hesc.
    destruct Hesc as (wrap & ->). eauto.
  - intros Hnone. rewrite (@find_none _ _ _ Hnone) in Hesc.
    now rewrite Hesc, terminate_with_active_spec, He.
  - cbn. now rewrite terminate_with_active_spec, He.
Qed.

(** No instantiation of [handle_or_terminate] returns a value: the
    declared result is the plain common type, never an optional, but the
    only common type for which the function is well-formed is [void]. *)
Lemma handle_or_terminate_returns_void (hs : list handler) :
  match result_type (handle_or_terminate hs) with
  | Some (Plain c) => is_void_v c = true
  | Some (Optional _) => False
  | None => True
  end.
Proof.
  destruct (handle_or_terminate hs) as [[t run]|] eqn:H; cbn; auto.
  destruct (@handle_or_terminate_void _ _ _ H) as (c & -> & Hc). exact Hc.
Qed.

(** C8. A callable taking only an ellipsis deduces
    [detail::catch_all_tag], one taking no parameter deduces [void].  A
    chain that contains a handler with either match type is rejected when
    [handle] or [handle_or_terminate] is instantiated, wherever the
    handler stands; no call of such a chain exists at run time. *)
Theorem unsupported_shapes_rejected :
  (forall R c, ArgumentOf (ClassType (Some (Signature R [] true, c)))
               = WellFormed catch_all_tag) /\
  (forall R c, ArgumentOf (ClassType (Some (Signature R [] false, c)))
               = WellFormed Void) /\
  forall (hs : list handler) (h : handler),
    In h hs ->
    match_type h = WellFormed catch_all_tag \/ match_type h = WellFormed Void ->
    well_formed (handle hs) = false /\
    well_formed (handle_or_terminate hs) = false /\
    forall this rt,
      run (handle hs) this rt = None /\
      run (handle_or_terminate hs) this rt = None.
Proof.
  split; [reflexivity|]. split; [reflexivity|].
  intros hs h Hin Hshape.
  assert (Hd : well_formed (handle hs) = false).
  { destruct (handle hs) as [[t run]|] eqn:H; [|reflexivity].
    destruct (@handle_match_types _ _ _ H h Hin) as (A & HA & Hok).
    destruct Hshape as [Hs|Hs]; rewrite Hs in HA; injection HA as <-;
      discriminate. }
  assert (He : well_formed (handle_or_terminate hs) = false).
  { destruct (handle_or_terminate hs) as [[t run]|] eqn:H; [|reflexivity].
    destruct (@handle_or_terminate_match_types _ _ _ H h Hin) as (A & HA & Hok).
    destruct Hshape as [Hs|Hs]; rewrite Hs in HA; injection HA as <-;
      discriminate. }
  repeat split; auto.
  - destruct (handle hs); [discriminate|reflexivity].
  - destruct (handle_or_terminate hs); [discriminate|reflexivity].
Qed.

Lemma is_pointer_not_reference (T : ctype) :
  is_pointer_v T = true -> remove_reference T = T.
Proof. destruct T; simpl; auto; discriminate. Qed.

Lemma cv_ref_variants_typeid (T1 T2 : ctype) :
  cv_ref_variants T1 T2 = true -> typeid T1 = typeid T2.
Proof.
  unfold cv_ref_variants, typeid. intros H.
  apply orb_true_iff in H. destruct H as [H|H];
    apply andb_true_iff in H; destruct H as (H & Hs);
    apply andb_true_iff in H; destruct H as (H1 & H2);
    apply is_same_true in Hs.
  - exact Hs.
  - now rewrite (@is_pointer_not_reference _ H1), (@is_pointer_not_reference _ H2).
Qed.

Lemma cv_ref_variants_target (T1 T2 : ctype) :
  cv_ref_variants T1 T2 = true ->
  (is_reference_v T1 || is_pointer_v T1) = true /\
  (is_reference_v T2 || is_pointer_v T2) = true /\
  is_pointer_v T1 = is_pointer_v T2.
Proof.
  unfold cv_ref_variants. intros H.
  apply orb_true_iff in H. destruct H as [H|H];
    apply andb_true_iff in H; destruct H as (H & _);
    apply andb_true_iff in H; destruct H as (H1 & H2).
  - rewrite H1, H2. repeat split.
    destruct T1, T2; try discriminate; reflexivity.
  - rewrite H1, H2, !orb_true_r. auto.
Qed.

(** C10. Matching does not see the reference category or the top-level
    cv-qualification of the target type: for two references to the same
    type up to cv, or two pointer types equal up to top-level cv,
    [typeid] is the same, both instantiations of [try_catch] exist, and
    on every handle one succeeds exactly when the other does. *)
Theorem try_catch_ignores_cv_and_reference (T1 T2 : ctype) (this : exception_ptr) :
  cv_ref_variants T1 T2 = true ->
  typeid T1 = typeid T2 /\
  exists target1 caught1 target2 caught2,
    try_catch T1 = WellFormed (target1, caught1) /\
    try_catch T2 = WellFormed (target2, caught2) /\
    truthy (caught1 this) = truthy (caught2 this).
Proof.
  intros H.
  pose proof (cv_ref_variants_typeid _ _ H) as Hid.
  destruct (cv_ref_variants_target _ _ H) as (H1 & H2 & Hp).
  split; [exact Hid|].
  unfold stdx.try_catch. rewrite H1, H2. cbn [static_assert cbind].
  do 4 eexists. split; [reflexivity|]. split; [reflexivity|].
  cbv beta. rewrite Hid. unfold try_catch_target. rewrite Hp.
  destruct (detail_try_catch this (typeid T2)) as [raw|];
    destruct (is_pointer_v T2); reflexivity.
Qed.

(** C6, as the code has it.  The parameter type of a one-parameter
    callable is deduced exactly as declared, nothing is stripped.
    [try_catch<T>] exists exactly for reference and pointer types, so a
    chain with a handler of any other match type (a by-value parameter)
    is rejected at instantiation; a handler taking an lvalue reference
    or a pointer is accepted. *)
Theorem handler_parameter_shapes :
  (forall R T c, ArgumentOf (ClassType (Some (Signature R [T] false, c)))
                 = WellFormed T) /\
  (forall T, well_formed (try_catch T) = is_reference_v T || is_pointer_v T) /\
  (forall (hs : list handler) (h : handler) (T : ctype),
     In h hs ->
     match_type h = WellFormed T ->
     is_reference_v T || is_pointer_v T = false ->
     well_formed (handle hs) = false /\
     well_formed (handle_or_terminate hs) = false) /\
  (forall label c body u,
     well_formed (handle [Handler label false
        (ClassType (Some (Signature Void [LRef u] false, c))) body]) = true /\
     well_formed (handle [Handler label false
        (ClassType (Some (Signature Void [Ptr u] false, c))) body]) = true).
Proof.
  split; [reflexivity|]. split.
  { intros T. unfold stdx.try_catch.
    destruct (is_reference_v T || is_pointer_v T); reflexivity. }
  split.
  - intros hs h T Hin HT Hshape. split.
    + destruct (handle hs) as [[t run]|] eqn:H; [|reflexivity].
      destruct (@handle_match_types _ _ _ H h Hin) as (A & HA & Hok).
      rewrite HT in HA. injection HA as <-. congruence.
    + destruct (handle_or_terminate hs) as [[t run]|] eqn:H; [|reflexivity].
      destruct (@handle_or_terminate_match_types _ _ _ H h Hin) as (A & HA & Hok).
      rewrite HT in HA. injection HA as <-. congruence.
  - intros label c body u. split; reflexivity.
Qed.

End Properties.

(* ================================================================= *)
(** ** Statements on the concrete program and on the ABI layer *)

(** C1. If the handler at position [k] is the first whose match type
    matches the payload, [handle] calls that handler on the typed view,
    once, and calls no other handler: the only change to the state is
    that one call.  The result signals the match and wraps what the
    handler returned.  With a [NetworkTimeout] payload and the handlers
    for [DiskFull], [NetworkTimeout] and [OutOfMemory] returning 1, 2 and
    3, the result is an optional holding 2. *)
Theorem dispatch_invokes_first_match :
  (forall (W : Type) (detail_try_catch : exception_ptr -> type_info -> option Z)
          (hs : list (handler W)) (this : exception_ptr) (k : nat)
          (h : handler W) (rt : runtime W),
     well_formed (handle detail_try_catch hs) = true ->
     nth_error hs k = Some h ->
     matches detail_try_catch this h = true ->
     (forall j h', (j < k)%nat -> nth_error hs j = Some h' ->
                   matches detail_try_catch this h' = false) ->
     exists wrap, (forall v, signals_match (wrap v) = true) /\
       run (handle detail_try_catch hs) this rt
       = Some (outcome_map wrap
                 (fst (body h (view detail_try_catch this h) (user rt))),
               after_call h (view detail_try_catch this h) rt)) /\
  run (handle Scenario.runtime_try_catch Scenario.handlers)
      Scenario.timeout_ptr Scenario.start
  = Some (Returns (VEngaged (VInt 2)),
          {| handled := []; user := tt;
             calls := [("h(NetworkTimeout)", VLvalue 4096)] |}).
Proof.
  split.
  - intros. now apply handle_first_match with (k := k).
  - reflexivity.
Qed.

(** C5. [handle_or_terminate] is declared to return the plain common
    type, never an optional; but with a handler that returns a value the
    instantiation is ill-formed, because the terminal overload's [void]
    result is returned from a function returning that value type.  The
    same handlers are accepted by [handle].  Every instantiation that is
    well-formed returns [void]. *)
Theorem escalation_rejects_value_chains :
  handle_or_terminate Scenario.runtime_try_catch [Scenario.h2]
  = IllFormed bad_return_statement /\
  handle_or_terminate Scenario.runtime_try_catch Scenario.handlers
  = IllFormed bad_return_statement /\
  result_type (handle Scenario.runtime_try_catch [Scenario.h2])
  = Some (Optional Int) /\
  forall (W : Type) (detail_try_catch : exception_ptr -> type_info -> option Z)
         (hs : list (handler W)),
    match result_type (handle_or_terminate detail_try_catch hs) with
    | Some (Plain c) => is_void_v c = true
    | Some (Optional _) => False
    | None => True
    end.
Proof.
  repeat split; try reflexivity.
  intros. apply handle_or_terminate_returns_void.
Qed.

(** C7.  With the ABI layer as the specification describes it,
    [try_catch<T>] for a reference or pointer type [T] succeeds exactly
    when the handle holds a payload whose type is compatible with
    [typeid(T)] (identical, or derived from it).  The result is a
    [std::optional<T>] when [T] is a pointer type and the pointer
    [add_pointer_t<T>] when [T] is a reference type.  On success it is
    the payload's own raw pointer: an engaged optional holding it, or
    that pointer itself, which dereferences to the payload where it
    lives; otherwise it is empty, a disengaged optional or the null
    pointer. *)
Theorem try_catch_views_payload (is_base_of : string -> string -> bool)
    (T : ctype) (this : exception_ptr) :
  (is_reference_v T || is_pointer_v T) = true ->
  exists caught_of,
    try_catch (abi_try_catch is_base_of) T
    = WellFormed (try_catch_target T, caught_of) /\
    try_catch_target T
    = (if is_pointer_v T then Optional T else Plain (Ptr (remove_reference T))) /\
    (truthy (caught_of this) = true <->
     exists e, base this = Some e /\
               compatible is_base_of (typeid T) (exceptionType e) = true) /\
    caught_of this
    = match base this with
      | Some e =>
          if compatible is_base_of (typeid T) (exceptionType e) then
            if is_pointer_v T
            then VEngaged (VPointer (Zpos (object_address e)))
            else VPointer (Zpos (object_address e))
          else if is_pointer_v T then VNullopt else VPointer 0
      | None => if is_pointer_v T then VNullopt else VPointer 0
      end /\
    (truthy (caught_of this) = true ->
     caught_of this = static_cast (try_catch_target T) (abi_get_raw_ptr this) /\
     deref (caught_of this)
     = if is_pointer_v T then VPointer (abi_get_raw_ptr this)
       else VLvalue (abi_get_raw_ptr this)) /\
    (truthy (caught_of this) = false ->
     caught_of this = value_initialized (try_catch_target T)).
Proof.
  intros HT. unfold try_catch. rewrite HT. cbn [static_assert cbind].
  eexists. split; [reflexivity|]. cbv beta.
  unfold abi_try_catch, abi_get_raw_ptr, try_catch_target, add_pointer.
  destruct (base this) as [e|].
  - destruct (compatible is_base_of (typeid T) (exceptionType e)) eqn:Hc;
      destruct (is_pointer_v T); cbn; repeat split; intros;
      try reflexivity; try discriminate; eauto.
    + destruct H as (e' & [= <-] & Hc'). congruence.
    + destruct H as (e' & [= <-] & Hc'). congruence.
  - destruct (is_pointer_v T); cbn; repeat split; intros;
      try reflexivity; try discriminate.
    + destruct H as (e' & He' & _). discriminate.
    + destruct H as (e' & He' & _). discriminate.
Qed.

(** C9.  With the runtime and the ABI layer as the specification
    describes them: re-raising a non-empty handle and capturing the
    active error in the handler gives a handle with the same type
    identity and the same payload pointer; it is the same handle. *)
Theorem reraise_then_capture (W : Type) (this : exception_ptr)
    (e : exception_object) (rt : runtime W) :
  base this = Some e ->
  exists again,
    try_catch_all (rethrow_exception (base this)) current_exception rt
    = (Returns again, rt) /\
    type abi_type again = type abi_type this /\
    type abi_type again = Some (exceptionType e) /\
    get_raw_ptr abi_get_raw_ptr again = get_raw_ptr abi_get_raw_ptr this /\
    again = this.
Proof.
  intros He. exists this. destruct this as [p]. cbn in He. subst p.
  destruct rt as [hd u cs]. repeat split.
Qed.

(* ================================================================= *)
(** ** The statements at concrete inputs *)

Module Instances.
Import Scenario.

(** The first-match theorem on the three handlers and the captured
    [NetworkTimeout]: position 1 is the first match. *)
Lemma dispatch_invokes_first_match_at_timeout :
  exists wrap, (forall v, signals_match (wrap v) = true) /\
    run (handle runtime_try_catch handlers) timeout_ptr start
    = Some (outcome_map wrap
              (fst (body h2 (view runtime_try_catch timeout_ptr h2) (user start))),
            after_call h2 (view runtime_try_catch timeout_ptr h2) start).
Proof.
  apply (proj1 dispatch_invokes_first_match unit runtime_try_catch handlers
           timeout_ptr 1%nat h2 start).
  - reflexivity.
  - reflexivity.
  - reflexivity.
  - intros j h' Hj Hn. destruct j as [|j]; [|lia].
    injection Hn as <-. reflexivity.
Defined.

(** The same handlers on a captured [InvalidInput]: nothing matches. *)
Lemma dispatch_no_match_at_invalid_input :
  run (handle runtime_try_catch handlers) invalid_ptr start
  = Some (Returns VNullopt, start).
Proof.
  apply (@dispatch_no_match_is_empty unit runtime_try_catch handlers
           invalid_ptr start).
  - reflexivity.
  - intros h [<-|[<-|[<-|[]]]]; reflexivity.
Defined.

(** Escalation with the two handlers returning nothing, on a captured
    [InvalidInput]. *)
Lemma escalation_at_invalid_input :
  run (handle_or_terminate runtime_try_catch void_handlers) invalid_ptr start
  = Some (Terminates,
          {| handled := [ExceptionObject InvalidInput 8192];
             user := tt; calls := [] |}).
Proof.
  refine (proj1 (proj2 (proj2
    (@escalation_matches_like_dispatch unit runtime_try_catch void_handlers
       invalid_ptr (ExceptionObject InvalidInput 8192) start _ _))) _).
  - reflexivity.
  - reflexivity.
  - intros h [<-|[<-|[]]]; reflexivity.
Defined.

(** A by-value handler among the arguments. *)
Lemma by_value_handler_makes_chain_ill_formed :
  well_formed (handle runtime_try_catch [h1; by_value]) = false /\
  well_formed (handle_or_terminate runtime_try_catch [h1; by_value]) = false.
Proof.
  apply (proj1 (proj2 (proj2 (@handler_parameter_shapes unit runtime_try_catch)))
           [h1; by_value] by_value NetworkTimeout).
  - simpl. auto.
  - reflexivity.
  - reflexivity.
Defined.

(** Extraction of a [NetworkTimeout&] view from the captured
    [NetworkTimeout], and of an [OutOfMemory*] view from a thrown
    [OutOfMemory*]: a pointer in the first case, an engaged optional of
    pointer in the second. *)
Lemma try_catch_views_reference_and_pointer :
  (exists caught_of,
     try_catch runtime_try_catch (LRef NetworkTimeout)
     = WellFormed (Plain (Ptr NetworkTimeout), caught_of) /\
     caught_of timeout_ptr = VPointer 4096 /\
     (truthy (caught_of timeout_ptr) = true ->
      deref (caught_of timeout_ptr) = VLvalue 4096)) /\
  (exists caught_of,
     try_catch runtime_try_catch (Ptr OutOfMemory)
     = WellFormed (Optional (Ptr OutOfMemory), caught_of) /\
     caught_of Handlers.pointer_ptr = VEngaged (VPointer 16384) /\
     (truthy (caught_of Handlers.pointer_ptr) = true ->
      deref (caught_of Handlers.pointer_ptr) = VPointer 16384)) /\
  (exists caught_of,
     try_catch runtime_try_catch (Ptr OutOfMemory)
     = WellFormed (Optional (Ptr OutOfMemory), caught_of) /\
     caught_of timeout_ptr = VNullopt).
Proof.
  split; [|split].
  - destruct (@try_catch_views_payload unrelated (LRef NetworkTimeout)
                timeout_ptr eq_refl)
      as (caught_of & Hinst & _ & _ & Hval & Hview & _).
    exists caught_of. split; [exact Hinst|]. split; [exact Hval|].
    intros Ht. exact (proj2 (Hview Ht)).
  - destruct (@try_catch_views_payload unrelated (Ptr OutOfMemory)
                Handlers.pointer_ptr eq_refl)
      as (caught_of & Hinst & _ & _ & Hval & Hview & _).
    exists caught_of. split; [exact Hinst|]. split; [exact Hval|].
    intros Ht. exact (proj2 (Hview Ht)).
  - destruct (@try_catch_views_payload unrelated (Ptr OutOfMemory)
                timeout_ptr eq_refl)
      as (caught_of & Hinst & _ & _ & Hval & _).
    exists caught_of. split; [exact Hinst|exact Hval].
Defined.

(** A catch-all handler in second position. *)
Lemma catch_all_handler_rejected :
  well_formed (handle runtime_try_catch [h1; catch_all]) = false /\
  well_formed (handle_or_terminate runtime_try_catch [h1; catch_all]) = false /\
  forall this rt,
    run (handle runtime_try_catch [h1; catch_all]) this rt = None /\
    run (handle_or_terminate runtime_try_catch [h1; catch_all]) this rt = None.
Proof.
  apply (proj2 (proj2 (@unsupported_shapes_rejected unit runtime_try_catch))
           [h1; catch_all] catch_all).
  - simpl. auto.
  - left. reflexivity.
Defined.

(** Re-raising and re-capturing the [NetworkTimeout] handle. *)
Lemma reraise_then_capture_timeout :
  exists again,
    try_catch_all (rethrow_exception (base timeout_ptr)) current_exception start
    = (Returns again, start) /\
    type abi_type again = type abi_type timeout_ptr /\
    type abi_type again = Some NetworkTimeout /\
    get_raw_ptr abi_get_raw_ptr again = get_raw_ptr abi_get_raw_ptr timeout_ptr /\
    again = timeout_ptr.
Proof.
  apply (@reraise_then_capture unit timeout_ptr
           (ExceptionObject NetworkTimeout 4096) start).
  reflexivity.
Defined.

(** [const NetworkTimeout&] against [NetworkTimeout&&]. *)
Lemma const_lvalue_and_rvalue_reference_agree :
  typeid (LRef (Const NetworkTimeout)) = typeid (RRef NetworkTimeout) /\
  exists target1 caught1 target2 caught2,
    try_catch runtime_try_catch (LRef (Const NetworkTimeout))
    = WellFormed (target1, caught1) /\
    try_catch runtime_try_catch (RRef NetworkTimeout)
    = WellFormed (target2, caught2) /\
    truthy (caught1 timeout_ptr) = truthy (caught2 timeout_ptr).
Proof.
  apply (@try_catch_ignores_cv_and_reference runtime_try_catch
           (LRef (Const NetworkTimeout)) (RRef NetworkTimeout) timeout_ptr).
  reflexivity.
Defined.

(** The claim that a by-value handler takes part in matching fails: the
    payload is a [NetworkTimeout], the handler takes a [NetworkTimeout]
    by value, and there is no dispatch to run; the same handler taking a
    reference is accepted and called. *)
Lemma by_value_handler_rejected :
  well_formed (handle runtime_try_catch [by_value]) = false /\
  run (handle runtime_try_catch [by_value]) timeout_ptr start = None /\
  run (handle runtime_try_catch [h2]) timeout_ptr start
  = Some (Returns (VEngaged (VInt 2)),
          {| handled := []; user := tt;
             calls := [("h(NetworkTimeout)", VLvalue 4096)] |}).
Proof. repeat split. Qed.

End Instances.

(* ================================================================= *)
(** * Further properties of the library *)

(** ** Arithmetic return types *)

Lemma arithmetic_decay_cases (R : ctype) :
  is_arithmetic_v (decay R) = true ->
  decay R = Bool \/ decay R = Int \/ decay R = Long.
Proof.
  unfold is_arithmetic_v. rewrite remove_cv_decay.
  destruct (decay R); try discriminate; auto.
Qed.

Lemma arithmetic_not_void (R : ctype) :
  is_arithmetic_v (decay R) = true ->
  is_void_v (decay R) = false /\ is_void_v R = false.
Proof.
  intros H. assert (Hd : is_void_v (decay R) = false).
  { destruct (arithmetic_decay_cases _ H) as [E|[E|E]]; rewrite E; reflexivity. }
  split; [exact Hd|].
  destruct (is_void_v R) eqn:E; [|reflexivity].
  apply is_void_decay in E. congruence.
Qed.

Lemma widest_arithmetic (Rs : list ctype) :
  widest Rs = Bool \/ widest Rs = Int \/ widest Rs = Long.
Proof.
  unfold widest.
  destruct (existsb _ Rs); auto. destruct (existsb _ Rs); auto.
Qed.

Lemma widest_cons (R : ctype) (Rs : list ctype) :
  is_arithmetic_v (decay R) = true ->
  widest (R :: Rs)
  = match decay R, widest Rs with
    | Long, _ | _, Long => Long
    | Int, _ | _, Int => Int
    | _, _ => Bool
    end.
Proof.
  intros H. unfold widest. cbn [existsb].
  destruct (arithmetic_decay_cases _ H) as [E|[E|E]]; rewrite E; cbn;
    destruct (existsb (fun R0 => is_same (decay R0) Long) Rs);
    destruct (existsb (fun R0 => is_same (decay R0) Int) Rs); reflexivity.
Qed.

(** On arithmetic types [std::common_type] is the widest member. *)
Lemma common_type2_arithmetic (a b : ctype) :
  is_arithmetic_v (decay a) = true ->
  is_arithmetic_v (decay b) = true ->
  common_type2 a b = Some (widest [a; b]).
Proof.
  intros Ha Hb. rewrite (widest_cons a [b] Ha), (widest_cons b [] Hb).
  unfold common_type2, conditional_type, widest. cbn [existsb].
  destruct (arithmetic_decay_cases _ Ha) as [E|[E|E]];
    destruct (arithmetic_decay_cases _ Hb) as [F|[F|F]];
    rewrite E, F; reflexivity.
Qed.

Lemma common_type_from_arithmetic (rest : list ctype) : forall c,
  is_arithmetic_v (decay c) = true ->
  Forall (fun R => is_arithmetic_v (decay R) = true) rest ->
  common_type_from c rest = Some (widest (c :: rest)).
Proof.
  induction rest as [|t rest IH]; intros c Hc Hall; cbn [common_type_from].
  - rewrite (common_type2_arithmetic _ _ Hc Hc).
    f_equal. rewrite (widest_cons c [c] Hc), !(widest_cons c [] Hc).
    destruct (arithmetic_decay_cases _ Hc) as [E|[E|E]]; rewrite E; reflexivity.
  - inversion Hall as [|? ? Ht Hrest]; subst.
    rewrite (common_type2_arithmetic _ _ Hc Ht).
    assert (Hw : is_arithmetic_v (decay (widest [c; t])) = true).
    { destruct (widest_arithmetic [c; t]) as [E|[E|E]]; rewrite E; reflexivity. }
    rewrite (IH _ Hw Hrest). f_equal.
    rewrite (widest_cons (widest [c; t]) rest Hw),
      (widest_cons c (t :: rest) Hc), (widest_cons t rest Ht),
      (widest_cons c [t] Hc), (widest_cons t [] Ht).
    destruct (arithmetic_decay_cases _ Hc) as [E|[E|E]];
      destruct (arithmetic_decay_cases _ Ht) as [F|[F|F]];
      rewrite ?E, ?F; cbn;
      destruct (widest_arithmetic rest) as [G|[G|G]]; rewrite ?G; reflexivity.
Qed.

Lemma common_type_from_all_void (rest : list ctype) : forall c,
  is_void_v (decay c) = true ->
  Forall (fun R => is_void_v (decay R) = true) rest ->
  common_type_from c rest = Some Void.
Proof.
  assert (H2 : forall a b, is_void_v (decay a) = true ->
                           is_void_v (decay b) = true ->
                           common_type2 a b = Some Void).
  { intros a b Ha Hb. unfold common_type2, conditional_type.
    now rewrite Ha, Hb. }
  induction rest as [|t rest IH]; intros c Hc Hall; cbn [common_type_from].
  - now apply H2.
  - inversion Hall as [|? ? Ht Hrest]; subst.
    rewrite (H2 _ _ Hc Ht). now apply IH.
Qed.

(** ** Which chains are accepted *)

Section Coverage.

Variable W : Type.
Variable detail_try_catch : exception_ptr -> type_info -> option Z.

Abbreviation handler := (handler W).
Abbreviation runtime := (runtime W).
Abbreviation M := (M W).
Abbreviation try_catch := (try_catch detail_try_catch).
Abbreviation handle := (handle (W:=W) detail_try_catch).
Abbreviation handle_or_terminate := (handle_or_terminate (W:=W) detail_try_catch).
Abbreviation matches := (matches detail_try_catch).
Abbreviation view := (view detail_try_catch).

Lemma accepted_parameter_not_catch_all (T : ctype) :
  accepted_parameter T = true -> is_same T catch_all_tag = false.
Proof. destruct T; simpl; auto; discriminate. Qed.

(** What an accepted shape gives the templates. *)
Lemma accepted_shape_deductions (h : handler) :
  accepted_shape h = true ->
  exists T,
    by_lvalue h = false /\
    ArgumentOf (closure h) = WellFormed T /\
    accepted_parameter T = true /\
    ReturnOf (deduced h) = WellFormed (declared_return h).
Proof.
  unfold accepted_shape, declared_return, deduced.
  destruct h as [label lv c body]. cbn.
  destruct lv; [discriminate|]. cbn.
  destruct c as [s|s k|[[[R [|T [|T' ps]] [|]] k]|]|s|c|s k q qs|s k q qs]; cbn;
    try discriminate.
  intros HT. exists T. repeat split; auto.
  unfold ReturnOf. cbn. destruct T; try discriminate; reflexivity.
Qed.

(** What the templates need of a handler is an accepted shape. *)
Lemma deductions_accepted_shape (h : handler) (R A : ctype) :
  ReturnOf (deduced h) = WellFormed R ->
  ArgumentOf (closure h) = WellFormed A ->
  (is_reference_v A || is_pointer_v A) = true ->
  is_rvalue_reference_v A = false ->
  accepted_shape h = true /\ declared_return h = R.
Proof.
  unfold accepted_shape, declared_return, deduced, accepted_parameter.
  destruct h as [label lv c body]. cbn.
  destruct lv; [discriminate|]. cbn.
  destruct c as [s|s k|[[[R0 [|T [|T' ps]] [|]] k]|]|s|c|s k q qs|s k q qs]; cbn;
    try discriminate; unfold ReturnOf; cbn; try discriminate.
  - intros HR. exfalso.
    destruct (ArgumentImpl_function s) as [Arg|]; cbn in HR; [|discriminate].
    destruct Arg; discriminate.
  - intros HR. exfalso.
    destruct (ArgumentImpl_function s) as [Arg|]; cbn in HR; [|discriminate].
    destruct Arg; discriminate.
  - intros _ [= <-]. discriminate.
  - intros _ [= <-]. discriminate.
  - intros HR [= <-] Hshape Hbind. rewrite Hshape, Hbind.
    destruct T; cbn in HR; try discriminate; injection HR as <-; auto.
Qed.

Lemma accepted_ReturnOfs (hs : list handler) :
  forallb (@accepted_shape W) hs = true ->
  ReturnOfs hs = WellFormed (map (@declared_return W) hs).
Proof.
  induction hs as [|h rest IH]; cbn; intros H; [reflexivity|].
  apply andb_true_iff in H. destruct H as (Hh & Hrest).
  destruct (accepted_shape_deductions _ Hh) as (T & _ & _ & _ & ->).
  cbn. now rewrite (IH Hrest).
Qed.

Lemma implicitly_convertible_arithmetic (a b : ctype) :
  is_arithmetic_v (decay a) = true ->
  is_arithmetic_v (decay b) = true ->
  implicitly_convertible a b = true.
Proof.
  intros Ha Hb. unfold implicitly_convertible. rewrite Ha, Hb.
  apply orb_true_r.
Qed.

Lemma convertible_from_bool (c : ctype) :
  implicitly_convertible Bool c = true -> is_arithmetic_v (decay c) = true.
Proof.
  unfold implicitly_convertible. cbn [decay].
  intros H. apply orb_true_iff in H. destruct H as [H|H].
  - apply is_same_true in H. now rewrite <- H.
  - exact H.
Qed.

Lemma widest_is_arithmetic (Rs : list ctype) :
  is_arithmetic_v (decay (widest Rs)) = true /\ is_void_v (widest Rs) = false.
Proof.
  destruct (widest_arithmetic Rs) as [E|[E|E]]; rewrite E; auto.
Qed.

Lemma forallb_returns_void (hs : list handler) :
  forallb (@returns_void W) hs = true ->
  Forall (fun R => is_void_v (decay R) = true) (map (@declared_return W) hs).
Proof.
  rewrite forallb_forall, Forall_forall. intros H R HR.
  apply in_map_iff in HR. destruct HR as (h & <- & Hin). now apply H.
Qed.

Lemma forallb_returns_arithmetic (hs : list handler) :
  forallb (@returns_arithmetic W) hs = true ->
  Forall (fun R => is_arithmetic_v (decay R) = true) (map (@declared_return W) hs).
Proof.
  rewrite forallb_forall, Forall_forall. intros H R HR.
  apply in_map_iff in HR. destruct HR as (h & <- & Hin). now apply H.
Qed.

(** The common type of an accepted, non-empty chain. *)
Lemma accepted_common_type (h : handler) (rest : list handler) :
  (forallb (@returns_void W) (h :: rest) = true ->
   common_type (map (@declared_return W) (h :: rest)) = WellFormed Void) /\
  (forallb (@returns_arithmetic W) (h :: rest) = true ->
   common_type (map (@declared_return W) (h :: rest))
   = WellFormed (widest (map (@declared_return W) (h :: rest)))).
Proof.
  split; intros H.
  - apply forallb_returns_void in H. cbn [map] in *.
    inversion H as [|? ? Hh Hrest]; subst.
    cbn [common_type]. now rewrite (common_type_from_all_void _ Hh Hrest).
  - apply forallb_returns_arithmetic in H. cbn [map] in *.
    inversion H as [|? ? Hh Hrest]; subst.
    cbn [common_type]. now rewrite (common_type_from_arithmetic _ Hh Hrest).
Qed.

Lemma chain_result_cases (hs : list handler) :
  forallb (@returns_void W) hs || forallb (@returns_arithmetic W) hs = true ->
  (forallb (@returns_void W) hs = true /\ chain_result hs = Plain Bool) \/
  (hs <> [] /\ forallb (@returns_void W) hs = false /\
   forallb (@returns_arithmetic W) hs = true /\
   chain_result hs = Optional (widest (map (@declared_return W) hs))).
Proof.
  unfold chain_result. intros H.
  destruct (forallb (@returns_void W) hs) eqn:Hv; [auto|].
  right. cbn in H. repeat split; auto.
  intros ->. discriminate.
Qed.

(** An accepted chain instantiates [handle], with the result type
    [chain_result]. *)
Lemma handle_accepts_instantiates (hs : list handler) :
  handle_accepts hs = true ->
  exists run, handle hs = WellFormed (chain_result hs, run).
Proof.
  unfold handle_accepts.
  induction hs as [|h rest IH]; intros H.
  - cbn. eauto.
  - apply andb_true_iff in H. destruct H as (Hshapes & Hrets).
    pose proof Hshapes as Hs. cbn [forallb] in Hs.
    apply andb_true_iff in Hs. destruct Hs as (Hh & Hrest).
    destruct (accepted_shape_deductions _ Hh) as (T & Hlv & HA & HT & HR).
    assert (Hrets' : forallb (@returns_void W) rest
                     || forallb (@returns_arithmetic W) rest = true).
    { cbn [forallb] in Hrets. apply orb_true_iff in Hrets.
      apply orb_true_iff.
      destruct Hrets as [Hr|Hr]; apply andb_true_iff in Hr; tauto. }
    destruct IH as (run' & Hrun'); [now rewrite Hrest, Hrets'|].
    pose proof (accepted_parameter_not_catch_all _ HT) as Hcatch.
    unfold accepted_parameter in HT. apply andb_true_iff in HT.
    destruct HT as (Hshape & Hbind).
    destruct (accepted_common_type h rest) as (Hvoid & Harith).
    cbn [stdx.handle]. rewrite (accepted_ReturnOfs _ Hshapes). cbn [cbind].
    destruct (chain_result_cases _ Hrets) as [(Hv & Hres)|(_ & Hv & Ha & Hres)].
    + (* every handler returns void *)
      rewrite (Hvoid Hv). cbn [cbind]. rewrite HA. cbn [cbind].
      rewrite Hcatch. cbn [negb static_assert cbind].
      unfold stdx.try_catch. rewrite Hshape. cbn [static_assert cbind].
      rewrite Hbind. cbn [static_assert cbind]. rewrite HR. cbn [cbind].
      cbn [is_void_v remove_cv orb static_assert cbind].
      rewrite Hrun'.
      assert (Hrest_res : chain_result rest = Plain Bool).
      { unfold chain_result. cbn [forallb] in Hv.
        apply andb_true_iff in Hv. destruct Hv as (_ & ->). reflexivity. }
      rewrite Hrest_res, Hres. cbn. eauto.
    + (* every handler returns an arithmetic value *)
      rewrite (Harith Ha). cbn [cbind]. rewrite HA. cbn [cbind].
      rewrite Hcatch. cbn [negb static_assert cbind].
      unfold stdx.try_catch. rewrite Hshape. cbn [static_assert cbind].
      rewrite Hbind. cbn [static_assert cbind]. rewrite HR. cbn [cbind].
      set (CT := widest (map (@declared_return W) (h :: rest))) in *.
      destruct (widest_is_arithmetic (map (@declared_return W) (h :: rest)))
        as (HCTa & HCTv). fold CT in HCTa, HCTv.
      unfold handle_result. rewrite HCTv.
      pose proof Ha as Ha'. cbn [forallb] in Ha'.
      apply andb_true_iff in Ha'. destruct Ha' as (Hha & Hra).
      unfold returns_arithmetic in Hha.
      destruct (arithmetic_not_void _ Hha) as (_ & HRv).
      cbn [orb return_statement]. rewrite HRv.
      rewrite (implicitly_convertible_arithmetic _ _ Hha HCTa).
      cbn [negb andb static_assert cbind]. rewrite Hrun'. cbn [cbind].
      assert (Hconv : return_statement (chain_result rest) (Optional CT) = true).
      { destruct (chain_result_cases _ Hrets') as [(_ & ->)|(_ & _ & _ & ->)];
          cbn [return_statement].
        - cbn. now apply implicitly_convertible_arithmetic.
        - apply implicitly_convertible_arithmetic; auto.
          apply widest_is_arithmetic. }
      rewrite Hconv, Hres. cbn. eauto.
Qed.

(** Every handler of an instantiated [handle] has an accepted shape,
    and [ReturnOf] is the return type of its call operator. *)
Lemma handle_shapes (hs : list handler) : forall t run,
  handle hs = WellFormed (t, run) ->
  forallb (@accepted_shape W) hs = true.
Proof.
  induction hs as [|h rest IH]; intros t run H; [reflexivity|].
  apply handle_cons_inv in H. destruct H as
    (Rs & c & A & target & caught_of & R & RestRet & handle_rest &
     _ & _ & HA & _ & HT & Hbind & HR & _ & Hrest & _ & _ & _).
  apply try_catch_inv in HT. destruct HT as (HT & _).
  destruct (deductions_accepted_shape _ HR HA HT Hbind) as (Hh & _).
  cbn [forallb]. rewrite Hh. exact (IH _ _ Hrest).
Qed.

Lemma common_type_singleton (R c : ctype) :
  common_type [R] = WellFormed c -> c = decay R.
Proof.
  cbn. unfold common_type2, conditional_type.
  rewrite andb_diag, orb_diag.
  destruct (is_void_v (decay R)) eqn:Hv.
  - cbn. intros [= <-]. unfold is_void_v in Hv. rewrite remove_cv_decay in Hv.
    destruct (decay R); try discriminate; reflexivity.
  - rewrite (proj2 (is_same_true _ _) eq_refl). cbn.
    intros [= <-]. apply decay_idem.
Qed.

(** The head of a value chain unifies with an arithmetic neighbour only
    if it is arithmetic itself. *)
Lemma common_type_head_arithmetic (R R' : ctype) (Rs : list ctype) (c : ctype) :
  common_type (R :: R' :: Rs) = WellFormed c ->
  is_void_v c = false ->
  is_arithmetic_v (decay R') = true ->
  is_arithmetic_v (decay R) = true.
Proof.
  intros Hc Hv HR'.
  pose proof (@common_type_void _ _ Hc) as Hall.
  inversion Hall as [|? ? HRv _]; subst. rewrite Hv in HRv.
  cbn in Hc. destruct (common_type2 R R') as [c1|] eqn:E; [|discriminate].
  clear Hc. unfold common_type2, conditional_type in E.
  rewrite HRv in E. cbn [orb] in E.
  destruct (arithmetic_not_void _ HR') as (HRv' & _). rewrite HRv' in E.
  destruct (is_same (decay R) (decay R')) eqn:Hs.
  - apply is_same_true in Hs. now rewrite Hs.
  - destruct (is_arithmetic_v (decay R)); [reflexivity|discriminate].
Qed.

(** In a chain [handle] returns an optional for, every handler returns
    an arithmetic type: the last instantiation converts the [bool] of the
    terminal overload to its optional. *)
Lemma handle_value_chain_arithmetic (hs : list handler) : forall t run c,
  handle hs = WellFormed (t, run) ->
  t = Optional c ->
  forallb (@returns_arithmetic W) hs = true.
Proof.
  induction hs as [|h rest IH]; intros t run c0 H Ht; [reflexivity|].
  pose proof (handle_shapes _ H) as Hshapes.
  pose proof (accepted_ReturnOfs _ Hshapes) as HRs'.
  apply handle_cons_inv in H. destruct H as
    (Rs & c & A & target & caught_of & R & RestRet & handle_rest &
     HRs & Hc & _ & _ & _ & _ & _ & _ & Hrest & Hconv & -> & _).
  rewrite HRs' in HRs. injection HRs as <-.
  assert (Hv : is_void_v c = false).
  { unfold handle_result in Ht. destruct (is_void_v c); [discriminate|reflexivity]. }
  unfold handle_result in Hconv. rewrite Hv in Hconv.
  cbn [forallb]. apply andb_true_iff.
  destruct rest as [|h' rest'].
  - split; [|reflexivity].
    cbn in Hrest. injection Hrest as <- _.
    cbn in Hconv. apply convertible_from_bool in Hconv.
    cbn [map] in Hc. apply common_type_singleton in Hc. subst c.
    rewrite decay_idem in Hconv. exact Hconv.
  - pose proof Hrest as Hinner. apply handle_cons_inv in Hinner.
    destruct Hinner as
      (Rs1 & c' & _ & _ & _ & _ & _ & _ & HRs1 & Hc' & _ & _ & _ & _ & _ & _ & _ & _ & -> & _).
    pose proof (handle_shapes _ Hrest) as Hshapes'.
    rewrite (accepted_ReturnOfs _ Hshapes') in HRs1. injection HRs1 as <-.
    cbn [map] in Hc, Hc'.
    pose proof (@common_type_tail_void _ _ _ _ _ Hc Hc') as Hsame.
    assert (Hrest_arith : forallb (@returns_arithmetic W) (h' :: rest') = true).
    { eapply IH; eauto. unfold handle_result. rewrite <- Hsame, Hv. reflexivity. }
    split; [|exact Hrest_arith].
    cbn [forallb] in Hrest_arith. apply andb_true_iff in Hrest_arith.
    destruct Hrest_arith as (Hh' & _).
    exact (@common_type_head_arithmetic _ _ _ _ Hc Hv Hh').
Qed.

(** An instantiated [handle] was given an accepted chain. *)
Lemma handle_instantiates_accepts (hs : list handler) (t : rtype)
    (run : exception_ptr -> M value) :
  handle hs = WellFormed (t, run) -> handle_accepts hs = true.
Proof.
  intros H. unfold handle_accepts.
  pose proof (handle_shapes _ H) as Hshapes. rewrite Hshapes. cbn [andb].
  destruct hs as [|h rest]; [reflexivity|].
  pose proof H as Hinv. apply handle_cons_inv in Hinv. destruct Hinv as
    (Rs & c & _ & _ & _ & _ & _ & _ & HRs & Hc & _ & _ & _ & _ & _ & _ & _ & _ & Ht & _).
  rewrite (accepted_ReturnOfs _ Hshapes) in HRs. injection HRs as <-.
  unfold handle_result in Ht. destruct (is_void_v c) eqn:Hv.
  - apply orb_true_iff. left.
    pose proof (@common_type_void _ _ Hc) as Hall. rewrite Hv in Hall.
    rewrite Forall_forall in Hall. apply forallb_forall. intros x Hx.
    apply Hall. change (In (declared_return x) (map (@declared_return W) (h :: rest))).
    now apply in_map.
  - apply orb_true_iff. right. eapply handle_value_chain_arithmetic; eauto.
Qed.

Lemma handle_or_terminate_shapes (hs : list handler) : forall t run,
  handle_or_terminate hs = WellFormed (t, run) ->
  forallb (@accepted_shape W) hs = true /\
  forallb (fun h => is_void_v (declared_return h)) hs = true.
Proof.
  induction hs as [|h rest IH]; intros t run H; [split; reflexivity|].
  pose proof H as Hvoid. apply handle_or_terminate_void in Hvoid.
  destruct Hvoid as (c0 & -> & Hc0).
  apply handle_or_terminate_cons_inv in H. destruct H as
    (Rs & c & A & target & caught_of & R & RestRet & handle_rest &
     _ & _ & HA & _ & HT & Hbind & HR & Hret & Hrest & _ & [= ->] & _).
  apply try_catch_inv in HT. destruct HT as (HT & _).
  destruct (deductions_accepted_shape _ HR HA HT Hbind) as (Hh & HRh).
  destruct (IH _ _ Hrest) as (Hshapes & Hvoids).
  cbn [forallb]. rewrite Hh, Hshapes, Hvoids, HRh.
  cbn [return_statement] in Hret. rewrite Hc0 in Hret.
  destruct (is_void_v R); [auto|discriminate].
Qed.

Lemma handle_or_terminate_accepts_instantiates (hs : list handler) :
  handle_or_terminate_accepts hs = true ->
  exists run, handle_or_terminate hs = WellFormed (Plain Void, run).
Proof.
  unfold handle_or_terminate_accepts.
  induction hs as [|h rest IH]; intros H.
  - cbn. eauto.
  - apply andb_true_iff in H. destruct H as (Hshapes & Hvoids).
    pose proof Hshapes as Hs. cbn [forallb] in Hs.
    apply andb_true_iff in Hs. destruct Hs as (Hh & Hrest).
    pose proof Hvoids as Hvs. cbn [forallb] in Hvs.
    apply andb_true_iff in Hvs. destruct Hvs as (Hhv & Hrestv).
    destruct (accepted_shape_deductions _ Hh) as (T & Hlv & HA & HT & HR).
    destruct IH as (run' & Hrun'); [now rewrite Hrest, Hrestv|].
    pose proof (accepted_parameter_not_catch_all _ HT) as Hcatch.
    unfold accepted_parameter in HT. apply andb_true_iff in HT.
    destruct HT as (Hshape & Hbind).
    assert (Hall : forallb (@returns_void W) (h :: rest) = true).
    { apply forallb_forall. intros x Hx.
      rewrite forallb_forall in Hvoids. unfold returns_void.
      apply is_void_decay. now apply Hvoids. }
    destruct (accepted_common_type h rest) as (Hvoid & _).
    cbn [stdx.handle_or_terminate].
    rewrite (accepted_ReturnOfs _ Hshapes). cbn [cbind].
    rewrite (Hvoid Hall). cbn [cbind]. rewrite HA. cbn [cbind].
    rewrite Hcatch. cbn [negb static_assert cbind].
    unfold stdx.try_catch. rewrite Hshape. cbn [static_assert cbind].
    rewrite Hbind. cbn [static_assert cbind]. rewrite HR. cbn [cbind].
    cbn [return_statement]. rewrite Hhv.
    cbn [is_void_v remove_cv static_assert cbind]. rewrite Hrun'.
    cbn. eauto.
Qed.

(** X1. [handle] can be instantiated on a chain exactly when every
    handler is a temporary closure with one lvalue-reference or pointer
    parameter and either all handlers return [void] or all return an
    arithmetic type. *)
Theorem handle_accepts_exactly (hs : list handler) :
  well_formed (handle hs) = handle_accepts hs.
Proof.
  destruct (handle_accepts hs) eqn:Hacc.
  - destruct (handle_accepts_instantiates _ Hacc) as (run & ->). reflexivity.
  - destruct (handle hs) as [[t run]|] eqn:H; [|reflexivity].
    apply handle_instantiates_accepts in H. congruence.
Qed.

(** X2. [handle_or_terminate] can be instantiated on a chain exactly
    when every handler is a temporary closure with one lvalue-reference
    or pointer parameter and returns [void]. *)
Theorem handle_or_terminate_accepts_exactly (hs : list handler) :
  well_formed (handle_or_terminate hs) = handle_or_terminate_accepts hs.
Proof.
  destruct (handle_or_terminate_accepts hs) eqn:Hacc.
  - destruct (handle_or_terminate_accepts_instantiates _ Hacc) as (run & ->).
    reflexivity.
  - destruct (handle_or_terminate hs) as [[t run]|] eqn:H; [|reflexivity].
    apply handle_or_terminate_shapes in H. destruct H as (Hs & Hv).
    unfold handle_or_terminate_accepts in Hacc. rewrite Hs, Hv in Hacc.
    discriminate.
Qed.

(** X3. When [handle] is instantiated on handlers that return values,
    it returns an optional of the widest arithmetic type among their
    return types. *)
Theorem handle_returns_widest (hs : list handler) :
  well_formed (handle hs) = true ->
  forallb (@returns_void W) hs = false ->
  result_type (handle hs)
  = Some (Optional (widest (map (@declared_return W) hs))).
Proof.
  intros Hwf Hv.
  apply well_formed_inv in Hwf. destruct Hwf as ((t & run0) & Hwf).
  apply handle_instantiates_accepts in Hwf.
  destruct (handle_accepts_instantiates _ Hwf) as (run & ->).
  cbn. unfold chain_result. now rewrite Hv.
Qed.

Lemma forallb_permutation {A} (f : A -> bool) (l l' : list A) :
  Permutation l l' -> forallb f l = forallb f l'.
Proof.
  intros P. induction P; cbn; try congruence.
  now rewrite !andb_assoc, (andb_comm (f y)).
Qed.

Lemma existsb_permutation {A} (f : A -> bool) (l l' : list A) :
  Permutation l l' -> existsb f l = existsb f l'.
Proof.
  intros P. induction P; cbn; try congruence.
  now rewrite !orb_assoc, (orb_comm (f y)).
Qed.

(** X4. Reordering the handlers changes neither whether [handle] and
    [handle_or_terminate] can be instantiated nor the type [handle]
    returns; it only changes which handler is tried first. *)
Theorem acceptance_ignores_order (hs hs' : list handler) :
  Permutation hs hs' ->
  well_formed (handle hs) = well_formed (handle hs') /\
  well_formed (handle_or_terminate hs) = well_formed (handle_or_terminate hs') /\
  result_type (handle hs) = result_type (handle hs').
Proof.
  intros P.
  assert (Hacc : handle_accepts hs = handle_accepts hs').
  { unfold handle_accepts.
    now rewrite (forallb_permutation (@accepted_shape W) P),
      (forallb_permutation (@returns_void W) P),
      (forallb_permutation (@returns_arithmetic W) P). }
  assert (Hres : chain_result hs = chain_result hs').
  { unfold chain_result, widest.
    rewrite (forallb_permutation (@returns_void W) P).
    pose proof (Permutation_map (@declared_return W) P) as PR.
    now rewrite (existsb_permutation _ PR),
      (existsb_permutation (fun R => is_same (decay R) Int) PR). }
  assert (Hesc : handle_or_terminate_accepts hs = handle_or_terminate_accepts hs').
  { unfold handle_or_terminate_accepts.
    now rewrite (forallb_permutation (@accepted_shape W) P),
      (forallb_permutation (fun h => is_void_v (declared_return h)) P). }
  assert (Hwf : forall l, well_formed (handle l) = handle_accepts l).
  { intros l. destruct (handle_accepts l) eqn:E.
    - destruct (handle_accepts_instantiates _ E) as (run & ->). reflexivity.
    - destruct (handle l) as [[t run]|] eqn:H; [|reflexivity].
      apply handle_instantiates_accepts in H. congruence. }
  assert (Hwe : forall l, well_formed (handle_or_terminate l)
                          = handle_or_terminate_accepts l).
  { intros l. destruct (handle_or_terminate_accepts l) eqn:E.
    - destruct (handle_or_terminate_accepts_instantiates _ E) as (run & ->).
      reflexivity.
    - destruct (handle_or_terminate l) as [[t run]|] eqn:H; [|reflexivity].
      apply handle_or_terminate_shapes in H. destruct H as (Hs & Hv).
      unfold handle_or_terminate_accepts in E. rewrite Hs, Hv in E.
      discriminate. }
  rewrite !Hwf, !Hwe. repeat split; auto.
  pose proof (Hwf hs) as H1. pose proof (Hwf hs') as H2.
  rewrite Hacc in H1.
  destruct (handle_accepts hs') eqn:E.
  - destruct (handle_accepts_instantiates _ E) as (run' & ->).
    destruct (handle_accepts_instantiates _ Hacc) as (run & ->).
    cbn. now rewrite Hres.
  - destruct (handle hs); [discriminate|].
    destruct (handle hs'); [discriminate|]. reflexivity.
Qed.

(** X5. A handler passed as an lvalue (a named closure) makes both
    templates ill-formed: the return type is deduced from the reference
    type [Handler], on which [ArgumentImpl] finds no call operator. *)
Theorem lvalue_handler_rejected (hs : list handler) (h : handler) :
  In h hs ->
  by_lvalue h = true ->
  well_formed (handle hs) = false /\
  well_formed (handle_or_terminate hs) = false.
Proof.
  intros Hin Hlv.
  assert (Hshape : accepted_shape h = false)
    by (unfold accepted_shape; now rewrite Hlv).
  split.
  - destruct (handle hs) as [[t run]|] eqn:H; [|reflexivity].
    apply handle_shapes in H. rewrite forallb_forall in H.
    rewrite (H _ Hin) in Hshape. discriminate.
  - destruct (handle_or_terminate hs) as [[t run]|] eqn:H; [|reflexivity].
    apply handle_or_terminate_shapes in H. destruct H as (H & _).
    rewrite forallb_forall in H.
    rewrite (H _ Hin) in Hshape. discriminate.
Qed.

(** X6. [try_catch<T&&>] can be instantiated, but a handler whose
    parameter is an rvalue reference cannot be used: the handler is
    called on the lvalue [*caught]. *)
Theorem rvalue_reference_handler_rejected (u : ctype) :
  well_formed (try_catch (RRef u)) = true /\
  forall (hs : list handler) (h : handler),
    In h hs ->
    match_type h = WellFormed (RRef u) ->
    well_formed (handle hs) = false /\
    well_formed (handle_or_terminate hs) = false.
Proof.
  split; [reflexivity|]. intros hs h Hin HT.
  assert (Hshape : accepted_shape h = false).
  { destruct (accepted_shape h) eqn:E; [|reflexivity].
    destruct (accepted_shape_deductions _ E) as (T & _ & HA & Hp & _).
    unfold match_type in HT. rewrite HA in HT. injection HT as ->.
    discriminate. }
  split.
  - destruct (handle hs) as [[t run]|] eqn:H; [|reflexivity].
    apply handle_shapes in H. rewrite forallb_forall in H.
    rewrite (H _ Hin) in Hshape. discriminate.
  - destruct (handle_or_terminate hs) as [[t run]|] eqn:H; [|reflexivity].
    apply handle_or_terminate_shapes in H. destruct H as (H & _).
    rewrite forallb_forall in H.
    rewrite (H _ Hin) in Hshape. discriminate.
Qed.

(** X7. [handle] has no [else] after its [if constexpr]: the call of the
    terminal overload is instantiated for the last handler too, so the
    last handler of a chain [handle] accepts returns [void] or a type
    [bool] converts to.  A chain that mixes [void] and value handlers
    has no common type and is not accepted either. *)
Theorem handle_needs_bool_convertible_result (hs : list handler) (h : handler) :
  well_formed (handle (hs ++ [h])) = true ->
  (returns_void h = true \/
   implicitly_convertible Bool (declared_return h) = true) /\
  (forall h1 h2, In h1 (hs ++ [h]) -> In h2 (hs ++ [h]) ->
     returns_void h1 = returns_void h2).
Proof.
  intros Hwf.
  assert (Hlast : In h (hs ++ [h])) by (apply in_or_app; right; simpl; auto).
  apply well_formed_inv in Hwf. destruct Hwf as ((t & run) & Hwf).
  apply handle_instantiates_accepts in Hwf. unfold handle_accepts in Hwf.
  apply andb_true_iff in Hwf. destruct Hwf as (_ & Hrets).
  apply orb_true_iff in Hrets.
  destruct Hrets as [Hv|Ha]; rewrite forallb_forall in *.
  - split; [auto|]. intros h1 h2 Hin Hin'.
    now rewrite (Hv _ Hin), (Hv _ Hin').
  - split.
    + right. apply implicitly_convertible_arithmetic; auto.
      apply (Ha _ Hlast).
    + intros h1 h2 Hin Hin'. unfold returns_void.
      destruct (arithmetic_not_void _ (Ha _ Hin)) as (-> & _).
      destruct (arithmetic_not_void _ (Ha _ Hin')) as (-> & _).
      reflexivity.
Qed.

(** ** What a call of [handle] does *)

Lemma handle_run_spec (hs : list handler) (t : rtype)
    (run : exception_ptr -> M value) (this : exception_ptr) (rt : runtime) :
  handle hs = WellFormed (t, run) ->
  match find (matches this) hs with
  | Some h =>
      exists wrap, (forall v, matched_result t (wrap v) = true) /\
        run this rt = (outcome_map wrap (fst (body h (view this h) (user rt))),
                       after_call h (view this h) rt)
  | None => run this rt = (Returns (value_initialized t), rt)
  end.
Proof. intros H. exact (@handle_spec W detail_try_catch hs t run H this rt). Qed.

Lemma value_initialized_no_match (hs : list handler) (t : rtype)
    (run : exception_ptr -> M value) :
  handle hs = WellFormed (t, run) ->
  signals_match (value_initialized t) = false.
Proof.
  intros H.
  destruct (@handle_result_type W detail_try_catch hs t run H) as [->|(c & ->)];
    reflexivity.
Qed.

(** X8. The presence indicator is exact: when [handle] returns, its
    result signals a match ([true], or an engaged optional) if and only
    if some handler of the list matches the payload. *)
Theorem handle_signals_match_exactly (hs : list handler)
    (this : exception_ptr) (rt rt' : runtime) (v : value) :
  run (handle hs) this rt = Some (Returns v, rt') ->
  (signals_match v = true <-> exists h, In h hs /\ matches this h = true).
Proof.
  destruct (handle hs) as [[t body]|] eqn:H; [|discriminate].
  cbn [run]. intros Hrun. injection Hrun as Hrun.
  pose proof (@handle_run_spec hs t body this rt H) as Hspec.
  destruct (find (matches this) hs) as [h|] eqn:Hfind.
  - destruct Hspec as (wrap & Hwrap & Hbody). rewrite Hbody in Hrun.
    apply List.find_some in Hfind.
    destruct (fst (stdx.body h (view this h) (user rt))) as [v0| | |];
      cbn in Hrun; try discriminate.
    injection Hrun as <- _.
    split; [eauto|]. intros _.
    eapply matched_result_signals, Hwrap.
  - rewrite Hspec in Hrun. injection Hrun as <- _.
    rewrite (@value_initialized_no_match hs t body H).
    split; [discriminate|]. intros (h & Hin & Hm).
    rewrite (List.find_none _ _ Hfind _ Hin) in Hm. discriminate.
Qed.

(** X9. Whatever the handlers do, a call of [handle] never touches the
    handled-exception stack and makes at most one handler call: either
    the state is unchanged, or it is the state after one call of a
    handler of the list that matches, on its typed view. *)
Theorem handle_calls_at_most_one (hs : list handler) (this : exception_ptr)
    (rt rt' : runtime) (o : outcome value) :
  run (handle hs) this rt = Some (o, rt') ->
  handled rt' = handled rt /\
  (rt' = rt \/
   exists h, In h hs /\ matches this h = true /\
             rt' = after_call h (view this h) rt).
Proof.
  destruct (handle hs) as [[t body]|] eqn:H; [|discriminate].
  cbn [run]. intros Hrun. injection Hrun as Hrun.
  pose proof (@handle_run_spec hs t body this rt H) as Hspec.
  destruct (find (matches this) hs) as [h|] eqn:Hfind.
  - destruct Hspec as (wrap & _ & Hbody). rewrite Hbody in Hrun.
    injection Hrun as _ <-. apply List.find_some in Hfind.
    split; [reflexivity|]. right. exists h. tauto.
  - rewrite Hspec in Hrun. injection Hrun as _ <-. auto.
Qed.

(** X10. An exception thrown by the matching handler is not caught by
    the dispatch: it leaves [handle], and [handle_or_terminate] as well
    (which does not terminate then), after that one call; no later
    handler is tried. *)
Theorem handler_exception_propagates (hs : list handler) (this : exception_ptr)
    (h : handler) (e : exception_object) (rt : runtime) :
  find (matches this) hs = Some h ->
  fst (body h (view this h) (user rt)) = Throws e ->
  (well_formed (handle hs) = true ->
   run (handle hs) this rt = Some (Throws e, after_call h (view this h) rt)) /\
  (well_formed (handle_or_terminate hs) = true ->
   run (handle_or_terminate hs) this rt
   = Some (Throws e, after_call h (view this h) rt)).
Proof.
  intros Hfind Hbody. split; intros Hwf;
    apply well_formed_inv in Hwf; destruct Hwf as ((t & run0) & Hwf);
    rewrite Hwf; cbn [run].
  - pose proof (@handle_run_spec hs t run0 this rt Hwf) as Hspec.
    rewrite Hfind in Hspec. destruct Hspec as (wrap & _ & ->).
    now rewrite Hbody.
  - pose proof (@handle_or_terminate_spec W detail_try_catch hs t run0 Hwf this rt)
      as Hspec.
    rewrite Hfind in Hspec. destruct Hspec as (wrap & ->).
    now rewrite Hbody.
Qed.

(** X11. [handle_or_terminate] comes back to its caller, normally or
    with an exception, only after it has called a handler of the list
    that matches; on every other path the process is terminated (or, for
    a null handle, the behaviour is undefined). *)
Theorem handle_or_terminate_returns_only_after_match (hs : list handler)
    (this : exception_ptr) (rt rt' : runtime) (o : outcome value) :
  run (handle_or_terminate hs) this rt = Some (o, rt') ->
  (exists h, In h hs /\ matches this h = true /\
             rt' = after_call h (view this h) rt) \/
  (o = Terminates /\ base this <> None /\
   calls rt' = calls rt /\ user rt' = user rt) \/
  (o = Undefined /\ base this = None /\ rt' = rt).
Proof.
  destruct (handle_or_terminate hs) as [[t body]|] eqn:H; [|discriminate].
  cbn [run]. intros Hrun. injection Hrun as Hrun.
  pose proof (@handle_or_terminate_spec W detail_try_catch hs t body H this rt)
    as Hspec.
  destruct (find (matches this) hs) as [h|] eqn:Hfind.
  - destruct Hspec as (wrap & Hbody). rewrite Hbody in Hrun.
    injection Hrun as _ <-. apply List.find_some in Hfind.
    left. exists h. tauto.
  - rewrite Hspec, (@terminate_with_active_spec W value this rt) in Hrun.
    destruct (base this) as [e|]; injection Hrun as <- <-.
    + right. left. repeat split. discriminate.
    + right. right. auto.
Qed.

(** ** The value [handle] returns *)

Lemma wrap_in_range (bits z : Z) :
  0 < bits ->
  - 2 ^ (bits - 1) <= z < 2 ^ (bits - 1) ->
  wrap bits z = z.
Proof.
  intros Hb Hz. unfold wrap.
  assert (E : 2 ^ bits = 2 * 2 ^ (bits - 1)).
  { replace bits with (Z.succ (bits - 1)) at 1 by lia.
    apply Z.pow_succ_r. lia. }
  rewrite Z.mod_small by lia. lia.
Qed.

(** Converting a value of an arithmetic type to a type of at least its
    rank keeps the number. *)
Lemma convert_widens (a c : ctype) (v : value) :
  represents a v = true ->
  (c = Bool \/ c = Int \/ c = Long) ->
  (rank a <= rank c)%nat ->
  represents c (convert c v) = true /\ integral (convert c v) = integral v.
Proof.
  intros Hv Hc Hrank.
  assert (W32 : forall z, - 2 ^ 31 <= z < 2 ^ 31 -> wrap 32 z = z)
    by (intros; apply wrap_in_range; lia).
  assert (W64 : forall z, - 2 ^ 63 <= z < 2 ^ 63 -> wrap 64 z = z)
    by (intros; apply wrap_in_range; lia).
  destruct a; try discriminate; destruct v; try discriminate;
    destruct Hc as [-> | [-> | ->]]; cbn in Hrank; try lia;
    cbn [represents] in Hv;
    try (apply andb_true_iff in Hv; destruct Hv as (Hlo & Hhi);
         apply Z.leb_le in Hlo; apply Z.ltb_lt in Hhi);
    cbn [convert decay integral represents].
  - destruct b; auto.
  - destruct b; rewrite W32 by lia; cbn; auto.
  - destruct b; rewrite W64 by lia; cbn; auto.
  - rewrite W32 by lia. split; [|reflexivity].
    apply andb_true_iff. split; [apply Z.leb_le|apply Z.ltb_lt]; lia.
  - rewrite W64 by lia. split; [|reflexivity].
    apply andb_true_iff. split; [apply Z.leb_le|apply Z.ltb_lt]; lia.
  - rewrite W64 by lia. split; [|reflexivity].
    apply andb_true_iff. split; [apply Z.leb_le|apply Z.ltb_lt]; lia.
Qed.

Lemma widest_cons_rank (R : ctype) (Rs : list ctype) :
  is_arithmetic_v (decay R) = true ->
  (rank (decay R) <= rank (widest (R :: Rs)))%nat /\
  (rank (widest Rs) <= rank (widest (R :: Rs)))%nat.
Proof.
  intros H. rewrite (widest_cons R Rs H).
  destruct (arithmetic_decay_cases _ H) as [E|[E|E]]; rewrite E;
    destruct (widest_arithmetic Rs) as [G|[G|G]]; rewrite G; cbn; lia.
Qed.

Lemma handle_value_spec (hs : list handler) : forall t run,
  handle hs = WellFormed (t, run) ->
  forallb (@returns_void W) hs = false ->
  forall this rt h v,
    find (matches this) hs = Some h ->
    fst (body h (view this h) (user rt)) = Returns v ->
    represents (decay (declared_return h)) v = true ->
    exists w,
      run this rt = (Returns (VEngaged w), after_call h (view this h) rt) /\
      represents (widest (map (@declared_return W) hs)) w = true /\
      integral w = integral v.
Proof.
  induction hs as [|h0 rest IH]; intros t run H Hnv this rt h v Hfind Hbody Hv;
    [discriminate|].
  pose proof (@handle_instantiates_accepts _ _ _ H) as Hacc.
  unfold handle_accepts in Hacc. rewrite Hnv in Hacc.
  apply andb_true_iff in Hacc. destruct Hacc as (Hshapes & Harith).
  cbn [orb] in Harith.
  pose proof Harith as Ha. cbn [forallb] in Ha.
  apply andb_true_iff in Ha. destruct Ha as (Hh0 & Hrest_arith).
  unfold returns_arithmetic in Hh0.
  destruct (accepted_common_type h0 rest) as (_ & Hcommon).
  specialize (Hcommon Harith).
  destruct (widest_is_arithmetic (map (@declared_return W) (h0 :: rest)))
    as (_ & Hwv).
  apply handle_cons_inv in H. destruct H as
    (Rs & c & A & target & caught_of & R & RestRet & handle_rest &
     HRs & Hc & HA & _ & HT & _ & HR & _ & Hrest & _ & -> & ->).
  rewrite (accepted_ReturnOfs _ Hshapes) in HRs. injection HRs as <-.
  cbn [map] in *.
  rewrite Hcommon in Hc. injection Hc as <-.
  pose proof (@extracted_head W detail_try_catch h0 _ _ _ this HA HT) as Hex.
  assert (Hm : matches this h0 = truthy (caught_of this))
    by (unfold stdx.matches; now rewrite Hex).
  assert (Hview : view this h0 = deref (caught_of this))
    by (unfold stdx.view; now rewrite Hex).
  cbn [find] in Hfind. rewrite Hm in Hfind. cbv beta zeta.
  unfold handle_result. rewrite Hwv.
  destruct (truthy (caught_of this)) eqn:Htruthy.
  - (* the head is the match *)
    injection Hfind as <-. rewrite <- Hview.
    rewrite (@bind_invoke W h0 (view this h0) _ rt), Hbody.
    cbn [outcome_map returned].
    destruct (@widest_cons_rank _ (map (@declared_return W) rest) Hh0) as (Hrank & _).
    destruct (@convert_widens _ _ v Hv
                (widest_arithmetic (map (@declared_return W) (h0 :: rest))) Hrank)
      as (Hrep & Hint).
    eexists. split; [reflexivity|]. split; assumption.
  - (* the match is further down *)
    destruct rest as [|h1 rest']; [discriminate|].
    assert (Hnv' : forallb (@returns_void W) (h1 :: rest') = false).
    { cbn [forallb] in Hrest_arith |- *.
      apply andb_true_iff in Hrest_arith. destruct Hrest_arith as (Hh1 & _).
      unfold returns_void. unfold returns_arithmetic in Hh1.
      destruct (arithmetic_not_void _ Hh1) as (-> & _). reflexivity. }
    destruct (IH _ _ Hrest Hnv' this rt h v Hfind Hbody Hv)
      as (w' & Hrun' & Hrep' & Hint').
    pose proof (@handle_instantiates_accepts _ _ _ Hrest) as Hacc'.
    destruct (handle_accepts_instantiates _ Hacc') as (run2 & Hrun2).
    rewrite Hrun2 in Hrest. injection Hrest as <- _.
    unfold chain_result. rewrite Hnv'. cbn [map] in *.
    unfold bind, ret. rewrite Hrun'. cbn [returned].
    destruct (@widest_cons_rank _ (map (@declared_return W) (h1 :: rest')) Hh0)
      as (_ & Hrank).
    destruct (@convert_widens _ _ w' Hrep'
                (widest_arithmetic (map (@declared_return W) (h0 :: h1 :: rest')))
                Hrank) as (Hrep & Hint).
    eexists. split; [reflexivity|]. split; [exact Hrep|].
    exact (eq_trans Hint Hint').
Qed.

(** X12. On a chain of value handlers the optional [handle] returns
    holds the number the matching handler returned, as a value of the
    widest return type of the chain: the conversions to the common type
    on the way out never change it. *)
Theorem handle_preserves_value (hs : list handler) (this : exception_ptr)
    (h : handler) (v : value) (rt : runtime) :
  well_formed (handle hs) = true ->
  forallb (@returns_void W) hs = false ->
  find (matches this) hs = Some h ->
  fst (body h (view this h) (user rt)) = Returns v ->
  represents (decay (declared_return h)) v = true ->
  exists w,
    run (handle hs) this rt
    = Some (Returns (VEngaged w), after_call h (view this h) rt) /\
    represents (widest (map (@declared_return W) hs)) w = true /\
    integral w = integral v.
Proof.
  intros Hwf Hnv Hfind Hbody Hv.
  apply well_formed_inv in Hwf. destruct Hwf as ((t & run0) & Hwf).
  destruct (@handle_value_spec hs t run0 Hwf Hnv this rt h v Hfind Hbody Hv)
    as (w & Hrun & Hrep & Hint).
  exists w. rewrite Hwf. cbn [run]. rewrite Hrun. auto.
Qed.

(** X13. A handler matches exactly when [detail::try_catch] answers the
    query for [typeid] of its parameter type with a raw pointer that,
    for a reference parameter, is not null; a pointer parameter matches
    on a null raw pointer too.  The handler is then called on that very
    pointer: on the object it points to for a reference, on the pointer
    itself for a pointer. *)
Theorem match_is_raw_pointer (h : handler) (T : ctype) (this : exception_ptr) :
  match_type h = WellFormed T ->
  (is_reference_v T || is_pointer_v T) = true ->
  (matches this h = true <->
   exists raw, detail_try_catch this (typeid T) = Some raw /\
               (is_pointer_v T = true \/ raw <> 0)) /\
  (forall raw,
     detail_try_catch this (typeid T) = Some raw ->
     matches this h = true ->
     view this h = if is_pointer_v T then VPointer raw else VLvalue raw).
Proof.
  intros HT Hshape.
  unfold stdx.matches, stdx.view, stdx.extracted. rewrite HT.
  unfold stdx.try_catch. rewrite Hshape. cbn [static_assert cbind].
  unfold try_catch_target.
  destruct (detail_try_catch this (typeid T)) as [raw|];
    destruct (is_pointer_v T); cbn; split.
  - split; [eauto|reflexivity].
  - now intros raw' [= <-] _.
  - split.
    + intros H. exists raw. split; [reflexivity|]. right.
      intros ->. discriminate.
    + intros (raw' & [= <-] & [H|H]); [discriminate|].
      apply negb_true_iff. now apply Z.eqb_neq.
  - now intros raw' [= <-] _.
  - split; [discriminate|]. intros (raw & H & _). discriminate.
  - discriminate.
  - split; [discriminate|]. intros (raw & H & _). discriminate.
  - discriminate.
Qed.

Lemma find_skips_unmatched {A} (f : A -> bool) (pre l : list A) :
  (forall x, In x pre -> f x = false) -> find f (pre ++ l) = find f l.
Proof.
  induction pre as [|a pre IH]; cbn; intros H; [reflexivity|].
  rewrite (H a) by auto. apply IH. auto.
Qed.

Lemma handle_accepts_suffix (pre hs : list handler) :
  handle_accepts (pre ++ hs) = true -> handle_accepts hs = true.
Proof.
  unfold handle_accepts. rewrite !forallb_app. intros H.
  apply andb_true_iff in H. destruct H as (Hs & Hr).
  apply andb_true_iff in Hs. destruct Hs as (_ & ->). cbn [andb].
  apply orb_true_iff in Hr. apply orb_true_iff.
  destruct Hr as [Hr|Hr]; apply andb_true_iff in Hr; tauto.
Qed.

(** X14. Handlers that do not match are transparent: if no handler of a
    prefix of the list matches, [handle] on the whole list makes the
    same handler call, with the same effect, as [handle] on the rest of
    the list, and signals a match exactly when that one does. *)
Theorem handle_skips_unmatched_prefix (pre hs : list handler)
    (this : exception_ptr) (rt : runtime) :
  well_formed (handle (pre ++ hs)) = true ->
  (forall h, In h pre -> matches this h = false) ->
  exists o o' s,
    run (handle (pre ++ hs)) this rt = Some (o, s) /\
    run (handle hs) this rt = Some (o', s) /\
    outcome_map signals_match o = outcome_map signals_match o'.
Proof.
  intros Hwf Hpre.
  apply well_formed_inv in Hwf. destruct Hwf as ((t & run0) & Hwf).
  pose proof (@handle_instantiates_accepts _ _ _ Hwf) as Hacc.
  apply handle_accepts_suffix in Hacc.
  destruct (handle_accepts_instantiates _ Hacc) as (run1 & Hwf1).
  pose proof (@handle_run_spec _ _ _ this rt Hwf) as Hspec.
  pose proof (@handle_run_spec _ _ _ this rt Hwf1) as Hspec1.
  rewrite (@find_skips_unmatched _ _ pre hs Hpre) in Hspec.
  rewrite Hwf, Hwf1. cbn [run].
  destruct (find (matches this) hs) as [h|].
  - destruct Hspec as (wrap & Hwrap & ->).
    destruct Hspec1 as (wrap1 & Hwrap1 & ->).
    do 3 eexists. split; [reflexivity|]. split; [reflexivity|].
    destruct (fst (body h (view this h) (user rt))); cbn; try reflexivity.
    now rewrite (@matched_result_signals _ _ (Hwrap a)),
      (@matched_result_signals _ _ (Hwrap1 a)).
  - rewrite Hspec, Hspec1.
    do 3 eexists. split; [reflexivity|]. split; [reflexivity|].
    cbn. now rewrite (@value_initialized_no_match _ _ _ Hwf),
      (@value_initialized_no_match _ _ _ Hwf1).
Qed.

End Coverage.

(** X15. Only a class with a single call operator of exactly one
    parameter can be a handler: a free function (it decays to a pointer
    to function), a class whose [operator()] is overloaded or a template,
    and a callable of two or more parameters make both templates
    ill-formed, wherever they stand in the list. *)
Theorem unsupported_callables_rejected (W : Type)
    (detail_try_catch : exception_ptr -> type_info -> option Z)
    (hs : list (handler W)) (h : handler W) :
  In h hs ->
  (exists s, closure h = FunctionPointer s) \/
  closure h = ClassType None \/
  (exists s k, closure h = ClassType (Some (s, k)) /\
               (2 <= List.length (sig_params s))%nat) ->
  well_formed (handle detail_try_catch hs) = false /\
  well_formed (handle_or_terminate detail_try_catch hs) = false.
Proof.
  intros Hin Hkind.
  assert (Hshape : accepted_shape h = false).
  { unfold accepted_shape.
    destruct Hkind as [(s & ->)|[->|(s & k & -> & Hlen)]];
      try apply andb_false_r.
    destruct s as [R [|T [|T' ps]] v]; cbn in Hlen; try lia.
    apply andb_false_r. }
  split.
  - destruct (handle detail_try_catch hs) as [[t run]|] eqn:H; [|reflexivity].
    apply handle_shapes in H. rewrite forallb_forall in H.
    rewrite (H _ Hin) in Hshape. discriminate.
  - destruct (handle_or_terminate detail_try_catch hs) as [[t run]|] eqn:H;
      [|reflexivity].
    apply handle_or_terminate_shapes in H. destruct H as (H & _).
    rewrite forallb_forall in H.
    rewrite (H _ Hin) in Hshape. discriminate.
Qed.



(* ================================================================= *)
(** ** The further properties at concrete inputs *)

Module More_instances.
Import Scenario Handlers.

(** [bool], [int] and [long] handlers: the result is an optional [long]. *)
Lemma mixed_widths_return_optional_long :
  result_type (handle runtime_try_catch mixed_widths) = Some (Optional Long).
Proof.
  apply (@handle_returns_widest unit runtime_try_catch mixed_widths);
    reflexivity.
Defined.

(** Swapping the first two of the three handlers. *)
Lemma swapped_handlers_accepted_alike :
  well_formed (handle runtime_try_catch [h1; h2; h3])
  = well_formed (handle runtime_try_catch [h2; h1; h3]) /\
  well_formed (handle_or_terminate runtime_try_catch [h1; h2; h3])
  = well_formed (handle_or_terminate runtime_try_catch [h2; h1; h3]) /\
  result_type (handle runtime_try_catch [h1; h2; h3])
  = result_type (handle runtime_try_catch [h2; h1; h3]).
Proof.
  apply (@acceptance_ignores_order unit runtime_try_catch
           [h1; h2; h3] [h2; h1; h3]).
  apply perm_swap.
Defined.

(** A named closure among the arguments. *)
Lemma named_closure_rejected :
  well_formed (handle runtime_try_catch [v1; named]) = false /\
  well_formed (handle_or_terminate runtime_try_catch [v1; named]) = false.
Proof.
  apply (@lvalue_handler_rejected unit runtime_try_catch [v1; named] named).
  - simpl. auto.
  - reflexivity.
Defined.

(** A handler taking [NetworkTimeout&&]. *)
Lemma rvalue_reference_parameter_rejected :
  well_formed (handle runtime_try_catch [by_rvalue_reference]) = false /\
  well_formed (handle_or_terminate runtime_try_catch [by_rvalue_reference])
  = false.
Proof.
  apply (proj2 (@rvalue_reference_handler_rejected unit runtime_try_catch
                  NetworkTimeout)
           [by_rvalue_reference] by_rvalue_reference).
  - simpl. auto.
  - reflexivity.
Defined.

(** The three [int] handlers: [bool] converts to the return type of the
    last one, and none returns [void]. *)
Lemma int_handlers_end_bool_convertible :
  (returns_void h3 = true \/
   implicitly_convertible Bool (declared_return h3) = true) /\
  (forall h1' h2', In h1' ([h1; h2] ++ [h3]) -> In h2' ([h1; h2] ++ [h3]) ->
     returns_void h1' = returns_void h2').
Proof.
  apply (@handle_needs_bool_convertible_result unit runtime_try_catch
           [h1; h2] h3).
  reflexivity.
Defined.

(** The result on the captured [NetworkTimeout] signals a match, and a
    handler matches. *)
Lemma timeout_result_signals_match :
  signals_match (VEngaged (VInt 2)) = true <->
  exists h, In h handlers /\ matches runtime_try_catch timeout_ptr h = true.
Proof.
  apply (@handle_signals_match_exactly unit runtime_try_catch handlers
           timeout_ptr start
           {| handled := []; user := tt;
              calls := [("h(NetworkTimeout)", VLvalue 4096)] |}
           (VEngaged (VInt 2))).
  reflexivity.
Defined.

(** One call on the captured [NetworkTimeout]. *)
Lemma timeout_dispatch_calls_one :
  handled (after_call h2 (VLvalue 4096) start) = handled start /\
  (after_call h2 (VLvalue 4096) start = start \/
   exists h, In h handlers /\ matches runtime_try_catch timeout_ptr h = true /\
             after_call h2 (VLvalue 4096) start
             = after_call h (view runtime_try_catch timeout_ptr h) start).
Proof.
  apply (@handle_calls_at_most_one unit runtime_try_catch handlers
           timeout_ptr start (after_call h2 (VLvalue 4096) start)
           (Returns (VEngaged (VInt 2)))).
  reflexivity.
Defined.

(** A handler that throws [OutOfMemory] while handling the
    [NetworkTimeout]. *)
Lemma raising_handler_propagates :
  (well_formed (handle runtime_try_catch [v1; raising]) = true ->
   run (handle runtime_try_catch [v1; raising]) timeout_ptr start
   = Some (Throws (ExceptionObject OutOfMemory 12288),
           after_call raising (view runtime_try_catch timeout_ptr raising) start)) /\
  (well_formed (handle_or_terminate runtime_try_catch [v1; raising]) = true ->
   run (handle_or_terminate runtime_try_catch [v1; raising]) timeout_ptr start
   = Some (Throws (ExceptionObject OutOfMemory 12288),
           after_call raising (view runtime_try_catch timeout_ptr raising) start)).
Proof.
  apply (@handler_exception_propagates unit runtime_try_catch [v1; raising]
           timeout_ptr raising (ExceptionObject OutOfMemory 12288) start);
    reflexivity.
Defined.

(** Escalation on the captured [InvalidInput]: the second alternative. *)
Lemma escalation_paths_at_invalid_input :
  (exists h, In h void_handlers /\
             matches runtime_try_catch invalid_ptr h = true /\
             {| handled := [ExceptionObject InvalidInput 8192];
                user := tt; calls := [] |}
             = after_call h (view runtime_try_catch invalid_ptr h) start) \/
  (@Terminates value = Terminates /\ base invalid_ptr <> None /\
   calls {| handled := [ExceptionObject InvalidInput 8192];
            user := tt; calls := [] |} = calls start /\
   user {| handled := [ExceptionObject InvalidInput 8192];
           user := tt; calls := [] |} = user start) \/
  (@Terminates value = Undefined /\ base invalid_ptr = None /\
   {| handled := [ExceptionObject InvalidInput 8192]; user := tt; calls := [] |}
   = start).
Proof.
  apply (@handle_or_terminate_returns_only_after_match unit runtime_try_catch
           void_handlers invalid_ptr start
           {| handled := [ExceptionObject InvalidInput 8192];
              user := tt; calls := [] |}
           Terminates).
  reflexivity.
Defined.

(** The [int] 2 of the [NetworkTimeout] handler comes out as the [long]
    2 when a [long] handler is in the chain. *)
Lemma int_result_widened_to_long :
  exists w,
    run (handle runtime_try_catch mixed_widths) timeout_ptr start
    = Some (Returns (VEngaged w),
            after_call h2 (view runtime_try_catch timeout_ptr h2) start) /\
    represents (widest (map (@declared_return unit) mixed_widths)) w = true /\
    integral w = integral (VInt 2).
Proof.
  apply (@handle_preserves_value unit runtime_try_catch mixed_widths
           timeout_ptr h2 (VInt 2) start); reflexivity.
Defined.

(** A pointer handler against a runtime that answers with a null raw
    pointer. *)
Lemma pointer_handler_matches_null :
  (matches null_try_catch timeout_ptr by_pointer = true <->
   exists raw, null_try_catch timeout_ptr (typeid (Ptr OutOfMemory)) = Some raw /\
               (is_pointer_v (Ptr OutOfMemory) = true \/ raw <> 0)) /\
  (forall raw,
     null_try_catch timeout_ptr (typeid (Ptr OutOfMemory)) = Some raw ->
     matches null_try_catch timeout_ptr by_pointer = true ->
     view null_try_catch timeout_ptr by_pointer
     = if is_pointer_v (Ptr OutOfMemory) then VPointer raw else VLvalue raw).
Proof.
  apply (@match_is_raw_pointer unit null_try_catch by_pointer
           (Ptr OutOfMemory) timeout_ptr); reflexivity.
Defined.

(** The [DiskFull] handler in front of the other two, on the captured
    [NetworkTimeout]. *)
Lemma unmatched_first_handler_is_transparent :
  exists o o' s,
    run (handle runtime_try_catch ([h1] ++ [h2; h3])) timeout_ptr start
    = Some (o, s) /\
    run (handle runtime_try_catch [h2; h3]) timeout_ptr start = Some (o', s) /\
    outcome_map signals_match o = outcome_map signals_match o'.
Proof.
  apply (@handle_skips_unmatched_prefix unit runtime_try_catch [h1] [h2; h3]
           timeout_ptr start).
  - reflexivity.
  - intros h [<-|[]]. reflexivity.
Defined.

(** A free function among the arguments. *)
Lemma free_function_rejected :
  well_formed (handle runtime_try_catch [v1; free_function]) = false /\
  well_formed (handle_or_terminate runtime_try_catch [v1; free_function]) = false.
Proof.
  apply (@unsupported_callables_rejected unit runtime_try_catch
           [v1; free_function] free_function).
  - simpl. auto.
  - left. eexists. reflexivity.
Defined.



(** A closure whose call operator is [noexcept] matches none of the
    member-pointer specialisations. *)
Lemma noexcept_closure_rejected :
  ArgumentOf (closure nonthrowing) = IllFormed no_call_operator /\
  accepted_shape nonthrowing = false /\
  well_formed (handle runtime_try_catch [nonthrowing]) = false /\
  well_formed (handle_or_terminate runtime_try_catch [nonthrowing]) = false.
Proof. repeat split. Qed.

End More_instances.
